(** * Loopover solving session: the state machine of [src/state.ts]

    A shallow embedding of the [State] class: the session fields, the timer,
    the move log with its undo cursor, the solve recorder and the stored
    preferences, followed by the properties of the session that the
    specification lists. *)

From stdpp Require Import base strings gmap list pretty.
From Stdlib Require Import ZArith Lia.
From Stdlib Require QArith.QArith_base QArith.Qround.

Open Scope Z_scope.

(** ** Data model *)

(** [enum EventType { Normal = 0, Fmc = 1, Blind = 2 }] *)
Inductive EventType := Normal | Fmc | Blind.

#[global] Instance EventType_eq_dec : EqDecision EventType.
Proof. solve_decision. Defined.

(** Modelled from the spec: [Axis] and [Move] are declared in [./game], which
    is not among the sources.  A move is
    [{axis, index, n, time: milliseconds since session start}]. *)
Inductive Axis := Row | Col.

Module Move.
Record t := mk { axis : Axis; index : Z; n : Z; time : Z }.
End Move.

(** [interface Solve].  [scramble] is filled from [this.scrambledBoard!],
    which is [undefined] until the first scramble, hence the option; the two
    optional members are options as well. *)
Module Solve.
Record t (Board : Type) := mk {
  time : Z;
  moves : list Move.t;
  scramble : option Board;
  startTime : Z;
  memoTime : option Z;
  dnf : option bool }.
Arguments mk {Board}.
Arguments time {Board}.
Arguments moves {Board}.
Arguments scramble {Board}.
Arguments startTime {Board}.
Arguments memoTime {Board}.
Arguments dnf {Board}.
End Solve.

(** [interface StoredState] *)
Module StoredState.
Record t := mk {
  version : Z;
  cols : Z;
  rows : Z;
  event : EventType;
  noRegrips : option bool;
  darkMode : option bool;
  forceMobile : option bool;
  useLetters : option bool;
  darkText : option bool }.
End StoredState.

(** Modelled from the spec: the PuzzleEngine collaborator ([Game] and [Board]
    of [./game]).  The board is opaque; the engine applies a move in place,
    tests for the solved board, clones a board, produces a scramble (the
    integer stands for the random draw) and rebuilds the board for new
    dimensions.  [tileAt b r c] is [b.grid[r][c]]. *)
Class Engine (Board Tile : Type) := {
  applyMove : Axis -> Z -> Z -> Board -> Board;
  isSolved : Board -> bool;
  clone : Board -> Board;
  scrambleBoard : Z -> Board -> Board;
  sizedBoard : Z -> Z -> Board -> Board;
  tileAt : Board -> Z -> Z -> Tile }.

(** The members of the [Game] object that the session reads and writes. *)
Module Game.
Record t (Board Tile : Type) := mk {
  board : Board;
  blind : bool;
  noRegrips : bool;
  activeTile : option Tile }.
Arguments mk {Board Tile}.
Arguments board {Board Tile}.
Arguments blind {Board Tile}.
Arguments noRegrips {Board Tile}.
Arguments activeTile {Board Tile}.

Definition set_board {Board Tile} (b : Board) (g : t Board Tile) :=
  mk b (blind g) (noRegrips g) (activeTile g).
Definition set_blind {Board Tile} (v : bool) (g : t Board Tile) :=
  mk (board g) v (noRegrips g) (activeTile g).
Definition set_noRegrips {Board Tile} (v : bool) (g : t Board Tile) :=
  mk (board g) (blind g) v (activeTile g).
Definition set_activeTile {Board Tile} (v : option Tile) (g : t Board Tile) :=
  mk (board g) (blind g) (noRegrips g) v.
End Game.

(** ** JavaScript array operations on integer arguments *)

(** [l[i]]: [undefined] outside [0 .. length-1]. *)
Definition at_index {A} (l : list A) (i : Z) : option A :=
  if i <? 0 then None else l !! Z.to_nat i.

(** [l.splice(start, deleteCount)], the array left behind (ECMAScript
    Array.prototype.splice with no inserted items). *)
Definition splice {A} (start deleteCount : Z) (l : list A) : list A :=
  let len := Z.of_nat (length l) in
  let actualStart :=
    if start <? 0 then Z.max (len + start) 0 else Z.min start len in
  let actualDeleteCount := Z.min (Z.max deleteCount 0) (len - actualStart) in
  take (Z.to_nat actualStart) l
    ++ drop (Z.to_nat (actualStart + actualDeleteCount)) l.

(** [Math.ceil(x / 2)] on an integer [x]. *)
Definition ceil_half (x : Z) : Z := - ((- x) / 2).

(** ** JS numbers

    The values of a JS number: [NaN], the finite numbers and the two
    infinities.  The finite ones are taken as rationals: [Math.max],
    [Math.min] and [Math.floor] round nothing, so on the finite doubles they
    are the operations of the rationals. *)
Inductive JsNumber :=
  | NaN
  | Num (q : QArith_base.Q)
  | Infinity (negative : bool).

Module Math.

Definition max (x y : JsNumber) : JsNumber :=
  match x, y with
  | NaN, _ | _, NaN => NaN
  | Infinity false, _ | _, Infinity false => Infinity false
  | Infinity true, z | z, Infinity true => z
  | Num p, Num q => if QArith_base.Qle_bool p q then y else x
  end.

Definition min (x y : JsNumber) : JsNumber :=
  match x, y with
  | NaN, _ | _, NaN => NaN
  | Infinity true, _ | _, Infinity true => Infinity true
  | Infinity false, z | z, Infinity false => z
  | Num p, Num q => if QArith_base.Qle_bool p q then x else y
  end.

Definition floor (x : JsNumber) : JsNumber :=
  match x with
  | Num q => Num (QArith_base.inject_Z (Qround.Qfloor q))
  | _ => x
  end.

End Math.

(** [Math.floor(Math.min(Math.max(x, 1), 50))], the clamp that the watcher
    of the options applies to [cols] and to [rows]. *)
Definition clampSize (x : JsNumber) : JsNumber :=
  Math.floor
    (Math.min (Math.max x (Num (QArith_base.inject_Z 1)))
       (Num (QArith_base.inject_Z 50))).

(** The session holds its dimensions as integers, and the clamp of an
    integer is an integer. *)
Definition clampDimension (c : Z) : Z :=
  match clampSize (Num (QArith_base.inject_Z c)) with
  | Num q => Qround.Qfloor q
  | _ => c
  end.

Section Session.

Context {Board Tile : Type}.

(** [this.solves] is either the array the instance was constructed with or
    the very array stored in [sessionSolves] under a key: a push through one
    name is seen through the other. *)
Inductive SolvesRef :=
  | OwnArray (l : list (Solve.t Board))
  | EventArray (key : string).

(** [class State] *)
Record State := {
  cols : Z;
  rows : Z;
  custom : bool;
  event : EventType;
  noRegrips : bool;
  darkMode : bool;
  forceMobile : bool;
  useLetters : bool;
  darkText : bool;
  started : bool;
  scrambled : bool;
  inSolvingPhase : bool;
  dnf : bool;
  time : Z;
  startTime : Z;
  memoTime : Z;
  interval : option nat;
  scrambledBoard : option Board;
  moveHistory : list Move.t;
  undos : Z;
  inspecting : bool;
  solves : SolvesRef;
  allSolves : list (Solve.t Board);
  sessionSolves : gmap string (list (Solve.t Board));
  db : bool;
  sessionId : option Z;
  game : Game.t Board Tile }.

(** Field assignments [this.f = v]. *)
Definition set_cols (v : Z) (s : State) : State :=
  {| cols := v; rows := rows s; custom := custom s; event := event s;
     noRegrips := noRegrips s; darkMode := darkMode s;
     forceMobile := forceMobile s; useLetters := useLetters s;
     darkText := darkText s; started := started s; scrambled := scrambled s;
     inSolvingPhase := inSolvingPhase s; dnf := dnf s; time := time s;
     startTime := startTime s; memoTime := memoTime s;
     interval := interval s; scrambledBoard := scrambledBoard s;
     moveHistory := moveHistory s; undos := undos s;
     inspecting := inspecting s; solves := solves s;
     allSolves := allSolves s; sessionSolves := sessionSolves s; db := db s;
     sessionId := sessionId s; game := game s |}.

Definition set_rows (v : Z) (s : State) : State :=
  {| cols := cols s; rows := v; custom := custom s; event := event s;
     noRegrips := noRegrips s; darkMode := darkMode s;
     forceMobile := forceMobile s; useLetters := useLetters s;
     darkText := darkText s; started := started s; scrambled := scrambled s;
     inSolvingPhase := inSolvingPhase s; dnf := dnf s; time := time s;
     startTime := startTime s; memoTime := memoTime s;
     interval := interval s; scrambledBoard := scrambledBoard s;
     moveHistory := moveHistory s; undos := undos s;
     inspecting := inspecting s; solves := solves s;
     allSolves := allSolves s; sessionSolves := sessionSolves s; db := db s;
     sessionId := sessionId s; game := game s |}.

Definition set_custom (v : bool) (s : State) : State :=
  {| cols := cols s; rows := rows s; custom := v; event := event s;
     noRegrips := noRegrips s; darkMode := darkMode s;
     forceMobile := forceMobile s; useLetters := useLetters s;
     darkText := darkText s; started := started s; scrambled := scrambled s;
     inSolvingPhase := inSolvingPhase s; dnf := dnf s; time := time s;
     startTime := startTime s; memoTime := memoTime s;
     interval := interval s; scrambledBoard := scrambledBoard s;
     moveHistory := moveHistory s; undos := undos s;
     inspecting := inspecting s; solves := solves s;
     allSolves := allSolves s; sessionSolves := sessionSolves s; db := db s;
     sessionId := sessionId s; game := game s |}.

Definition set_event (v : EventType) (s : State) : State :=
  {| cols := cols s; rows := rows s; custom := custom s; event := v;
     noRegrips := noRegrips s; darkMode := darkMode s;
     forceMobile := forceMobile s; useLetters := useLetters s;
     darkText := darkText s; started := started s; scrambled := scrambled s;
     inSolvingPhase := inSolvingPhase s; dnf := dnf s; time := time s;
     startTime := startTime s; memoTime := memoTime s;
     interval := interval s; scrambledBoard := scrambledBoard s;
     moveHistory := moveHistory s; undos := undos s;
     inspecting := inspecting s; solves := solves s;
     allSolves := allSolves s; sessionSolves := sessionSolves s; db := db s;
     sessionId := sessionId s; game := game s |}.

Definition set_noRegrips (v : bool) (s : State) : State :=
  {| cols := cols s; rows := rows s; custom := custom s; event := event s;
     noRegrips := v; darkMode := darkMode s; forceMobile := forceMobile s;
     useLetters := useLetters s; darkText := darkText s;
     started := started s; scrambled := scrambled s;
     inSolvingPhase := inSolvingPhase s; dnf := dnf s; time := time s;
     startTime := startTime s; memoTime := memoTime s;
     interval := interval s; scrambledBoard := scrambledBoard s;
     moveHistory := moveHistory s; undos := undos s;
     inspecting := inspecting s; solves := solves s;
     allSolves := allSolves s; sessionSolves := sessionSolves s; db := db s;
     sessionId := sessionId s; game := game s |}.

Definition set_darkMode (v : bool) (s : State) : State :=
  {| cols := cols s; rows := rows s; custom := custom s; event := event s;
     noRegrips := noRegrips s; darkMode := v; forceMobile := forceMobile s;
     useLetters := useLetters s; darkText := darkText s;
     started := started s; scrambled := scrambled s;
     inSolvingPhase := inSolvingPhase s; dnf := dnf s; time := time s;
     startTime := startTime s; memoTime := memoTime s;
     interval := interval s; scrambledBoard := scrambledBoard s;
     moveHistory := moveHistory s; undos := undos s;
     inspecting := inspecting s; solves := solves s;
     allSolves := allSolves s; sessionSolves := sessionSolves s; db := db s;
     sessionId := sessionId s; game := game s |}.

Definition set_forceMobile (v : bool) (s : State) : State :=
  {| cols := cols s; rows := rows s; custom := custom s; event := event s;
     noRegrips := noRegrips s; darkMode := darkMode s; forceMobile := v;
     useLetters := useLetters s; darkText := darkText s;
     started := started s; scrambled := scrambled s;
     inSolvingPhase := inSolvingPhase s; dnf := dnf s; time := time s;
     startTime := startTime s; memoTime := memoTime s;
     interval := interval s; scrambledBoard := scrambledBoard s;
     moveHistory := moveHistory s; undos := undos s;
     inspecting := inspecting s; solves := solves s;
     allSolves := allSolves s; sessionSolves := sessionSolves s; db := db s;
     sessionId := sessionId s; game := game s |}.

Definition set_useLetters (v : bool) (s : State) : State :=
  {| cols := cols s; rows := rows s; custom := custom s; event := event s;
     noRegrips := noRegrips s; darkMode := darkMode s;
     forceMobile := forceMobile s; useLetters := v; darkText := darkText s;
     started := started s; scrambled := scrambled s;
     inSolvingPhase := inSolvingPhase s; dnf := dnf s; time := time s;
     startTime := startTime s; memoTime := memoTime s;
     interval := interval s; scrambledBoard := scrambledBoard s;
     moveHistory := moveHistory s; undos := undos s;
     inspecting := inspecting s; solves := solves s;
     allSolves := allSolves s; sessionSolves := sessionSolves s; db := db s;
     sessionId := sessionId s; game := game s |}.

Definition set_darkText (v : bool) (s : State) : State :=
  {| cols := cols s; rows := rows s; custom := custom s; event := event s;
     noRegrips := noRegrips s; darkMode := darkMode s;
     forceMobile := forceMobile s; useLetters := useLetters s; darkText := v;
     started := started s; scrambled := scrambled s;
     inSolvingPhase := inSolvingPhase s; dnf := dnf s; time := time s;
     startTime := startTime s; memoTime := memoTime s;
     interval := interval s; scrambledBoard := scrambledBoard s;
     moveHistory := moveHistory s; undos := undos s;
     inspecting := inspecting s; solves := solves s;
     allSolves := allSolves s; sessionSolves := sessionSolves s; db := db s;
     sessionId := sessionId s; game := game s |}.

Definition set_started (v : bool) (s : State) : State :=
  {| cols := cols s; rows := rows s; custom := custom s; event := event s;
     noRegrips := noRegrips s; darkMode := darkMode s;
     forceMobile := forceMobile s; useLetters := useLetters s;
     darkText := darkText s; started := v; scrambled := scrambled s;
     inSolvingPhase := inSolvingPhase s; dnf := dnf s; time := time s;
     startTime := startTime s; memoTime := memoTime s;
     interval := interval s; scrambledBoard := scrambledBoard s;
     moveHistory := moveHistory s; undos := undos s;
     inspecting := inspecting s; solves := solves s;
     allSolves := allSolves s; sessionSolves := sessionSolves s; db := db s;
     sessionId := sessionId s; game := game s |}.

Definition set_scrambled (v : bool) (s : State) : State :=
  {| cols := cols s; rows := rows s; custom := custom s; event := event s;
     noRegrips := noRegrips s; darkMode := darkMode s;
     forceMobile := forceMobile s; useLetters := useLetters s;
     darkText := darkText s; started := started s; scrambled := v;
     inSolvingPhase := inSolvingPhase s; dnf := dnf s; time := time s;
     startTime := startTime s; memoTime := memoTime s;
     interval := interval s; scrambledBoard := scrambledBoard s;
     moveHistory := moveHistory s; undos := undos s;
     inspecting := inspecting s; solves := solves s;
     allSolves := allSolves s; sessionSolves := sessionSolves s; db := db s;
     sessionId := sessionId s; game := game s |}.

Definition set_inSolvingPhase (v : bool) (s : State) : State :=
  {| cols := cols s; rows := rows s; custom := custom s; event := event s;
     noRegrips := noRegrips s; darkMode := darkMode s;
     forceMobile := forceMobile s; useLetters := useLetters s;
     darkText := darkText s; started := started s; scrambled := scrambled s;
     inSolvingPhase := v; dnf := dnf s; time := time s;
     startTime := startTime s; memoTime := memoTime s;
     interval := interval s; scrambledBoard := scrambledBoard s;
     moveHistory := moveHistory s; undos := undos s;
     inspecting := inspecting s; solves := solves s;
     allSolves := allSolves s; sessionSolves := sessionSolves s; db := db s;
     sessionId := sessionId s; game := game s |}.

Definition set_dnf (v : bool) (s : State) : State :=
  {| cols := cols s; rows := rows s; custom := custom s; event := event s;
     noRegrips := noRegrips s; darkMode := darkMode s;
     forceMobile := forceMobile s; useLetters := useLetters s;
     darkText := darkText s; started := started s; scrambled := scrambled s;
     inSolvingPhase := inSolvingPhase s; dnf := v; time := time s;
     startTime := startTime s; memoTime := memoTime s;
     interval := interval s; scrambledBoard := scrambledBoard s;
     moveHistory := moveHistory s; undos := undos s;
     inspecting := inspecting s; solves := solves s;
     allSolves := allSolves s; sessionSolves := sessionSolves s; db := db s;
     sessionId := sessionId s; game := game s |}.

Definition set_time (v : Z) (s : State) : State :=
  {| cols := cols s; rows := rows s; custom := custom s; event := event s;
     noRegrips := noRegrips s; darkMode := darkMode s;
     forceMobile := forceMobile s; useLetters := useLetters s;
     darkText := darkText s; started := started s; scrambled := scrambled s;
     inSolvingPhase := inSolvingPhase s; dnf := dnf s; time := v;
     startTime := startTime s; memoTime := memoTime s;
     interval := interval s; scrambledBoard := scrambledBoard s;
     moveHistory := moveHistory s; undos := undos s;
     inspecting := inspecting s; solves := solves s;
     allSolves := allSolves s; sessionSolves := sessionSolves s; db := db s;
     sessionId := sessionId s; game := game s |}.

Definition set_startTime (v : Z) (s : State) : State :=
  {| cols := cols s; rows := rows s; custom := custom s; event := event s;
     noRegrips := noRegrips s; darkMode := darkMode s;
     forceMobile := forceMobile s; useLetters := useLetters s;
     darkText := darkText s; started := started s; scrambled := scrambled s;
     inSolvingPhase := inSolvingPhase s; dnf := dnf s; time := time s;
     startTime := v; memoTime := memoTime s; interval := interval s;
     scrambledBoard := scrambledBoard s; moveHistory := moveHistory s;
     undos := undos s; inspecting := inspecting s; solves := solves s;
     allSolves := allSolves s; sessionSolves := sessionSolves s; db := db s;
     sessionId := sessionId s; game := game s |}.

Definition set_memoTime (v : Z) (s : State) : State :=
  {| cols := cols s; rows := rows s; custom := custom s; event := event s;
     noRegrips := noRegrips s; darkMode := darkMode s;
     forceMobile := forceMobile s; useLetters := useLetters s;
     darkText := darkText s; started := started s; scrambled := scrambled s;
     inSolvingPhase := inSolvingPhase s; dnf := dnf s; time := time s;
     startTime := startTime s; memoTime := v; interval := interval s;
     scrambledBoard := scrambledBoard s; moveHistory := moveHistory s;
     undos := undos s; inspecting := inspecting s; solves := solves s;
     allSolves := allSolves s; sessionSolves := sessionSolves s; db := db s;
     sessionId := sessionId s; game := game s |}.

Definition set_interval (v : option nat) (s : State) : State :=
  {| cols := cols s; rows := rows s; custom := custom s; event := event s;
     noRegrips := noRegrips s; darkMode := darkMode s;
     forceMobile := forceMobile s; useLetters := useLetters s;
     darkText := darkText s; started := started s; scrambled := scrambled s;
     inSolvingPhase := inSolvingPhase s; dnf := dnf s; time := time s;
     startTime := startTime s; memoTime := memoTime s; interval := v;
     scrambledBoard := scrambledBoard s; moveHistory := moveHistory s;
     undos := undos s; inspecting := inspecting s; solves := solves s;
     allSolves := allSolves s; sessionSolves := sessionSolves s; db := db s;
     sessionId := sessionId s; game := game s |}.

Definition set_scrambledBoard (v : option Board) (s : State) : State :=
  {| cols := cols s; rows := rows s; custom := custom s; event := event s;
     noRegrips := noRegrips s; darkMode := darkMode s;
     forceMobile := forceMobile s; useLetters := useLetters s;
     darkText := darkText s; started := started s; scrambled := scrambled s;
     inSolvingPhase := inSolvingPhase s; dnf := dnf s; time := time s;
     startTime := startTime s; memoTime := memoTime s;
     interval := interval s; scrambledBoard := v;
     moveHistory := moveHistory s; undos := undos s;
     inspecting := inspecting s; solves := solves s;
     allSolves := allSolves s; sessionSolves := sessionSolves s; db := db s;
     sessionId := sessionId s; game := game s |}.

Definition set_moveHistory (v : list Move.t) (s : State) : State :=
  {| cols := cols s; rows := rows s; custom := custom s; event := event s;
     noRegrips := noRegrips s; darkMode := darkMode s;
     forceMobile := forceMobile s; useLetters := useLetters s;
     darkText := darkText s; started := started s; scrambled := scrambled s;
     inSolvingPhase := inSolvingPhase s; dnf := dnf s; time := time s;
     startTime := startTime s; memoTime := memoTime s;
     interval := interval s; scrambledBoard := scrambledBoard s;
     moveHistory := v; undos := undos s; inspecting := inspecting s;
     solves := solves s; allSolves := allSolves s;
     sessionSolves := sessionSolves s; db := db s; sessionId := sessionId s;
     game := game s |}.

Definition set_undos (v : Z) (s : State) : State :=
  {| cols := cols s; rows := rows s; custom := custom s; event := event s;
     noRegrips := noRegrips s; darkMode := darkMode s;
     forceMobile := forceMobile s; useLetters := useLetters s;
     darkText := darkText s; started := started s; scrambled := scrambled s;
     inSolvingPhase := inSolvingPhase s; dnf := dnf s; time := time s;
     startTime := startTime s; memoTime := memoTime s;
     interval := interval s; scrambledBoard := scrambledBoard s;
     moveHistory := moveHistory s; undos := v; inspecting := inspecting s;
     solves := solves s; allSolves := allSolves s;
     sessionSolves := sessionSolves s; db := db s; sessionId := sessionId s;
     game := game s |}.

Definition set_inspecting (v : bool) (s : State) : State :=
  {| cols := cols s; rows := rows s; custom := custom s; event := event s;
     noRegrips := noRegrips s; darkMode := darkMode s;
     forceMobile := forceMobile s; useLetters := useLetters s;
     darkText := darkText s; started := started s; scrambled := scrambled s;
     inSolvingPhase := inSolvingPhase s; dnf := dnf s; time := time s;
     startTime := startTime s; memoTime := memoTime s;
     interval := interval s; scrambledBoard := scrambledBoard s;
     moveHistory := moveHistory s; undos := undos s; inspecting := v;
     solves := solves s; allSolves := allSolves s;
     sessionSolves := sessionSolves s; db := db s; sessionId := sessionId s;
     game := game s |}.

Definition set_solves (v : SolvesRef) (s : State) : State :=
  {| cols := cols s; rows := rows s; custom := custom s; event := event s;
     noRegrips := noRegrips s; darkMode := darkMode s;
     forceMobile := forceMobile s; useLetters := useLetters s;
     darkText := darkText s; started := started s; scrambled := scrambled s;
     inSolvingPhase := inSolvingPhase s; dnf := dnf s; time := time s;
     startTime := startTime s; memoTime := memoTime s;
     interval := interval s; scrambledBoard := scrambledBoard s;
     moveHistory := moveHistory s; undos := undos s;
     inspecting := inspecting s; solves := v; allSolves := allSolves s;
     sessionSolves := sessionSolves s; db := db s; sessionId := sessionId s;
     game := game s |}.

Definition set_allSolves (v : list (Solve.t Board)) (s : State) : State :=
  {| cols := cols s; rows := rows s; custom := custom s; event := event s;
     noRegrips := noRegrips s; darkMode := darkMode s;
     forceMobile := forceMobile s; useLetters := useLetters s;
     darkText := darkText s; started := started s; scrambled := scrambled s;
     inSolvingPhase := inSolvingPhase s; dnf := dnf s; time := time s;
     startTime := startTime s; memoTime := memoTime s;
     interval := interval s; scrambledBoard := scrambledBoard s;
     moveHistory := moveHistory s; undos := undos s;
     inspecting := inspecting s; solves := solves s; allSolves := v;
     sessionSolves := sessionSolves s; db := db s; sessionId := sessionId s;
     game := game s |}.

Definition set_sessionSolves (v : gmap string (list (Solve.t Board))) (s : State) : State :=
  {| cols := cols s; rows := rows s; custom := custom s; event := event s;
     noRegrips := noRegrips s; darkMode := darkMode s;
     forceMobile := forceMobile s; useLetters := useLetters s;
     darkText := darkText s; started := started s; scrambled := scrambled s;
     inSolvingPhase := inSolvingPhase s; dnf := dnf s; time := time s;
     startTime := startTime s; memoTime := memoTime s;
     interval := interval s; scrambledBoard := scrambledBoard s;
     moveHistory := moveHistory s; undos := undos s;
     inspecting := inspecting s; solves := solves s;
     allSolves := allSolves s; sessionSolves := v; db := db s;
     sessionId := sessionId s; game := game s |}.

Definition set_db (v : bool) (s : State) : State :=
  {| cols := cols s; rows := rows s; custom := custom s; event := event s;
     noRegrips := noRegrips s; darkMode := darkMode s;
     forceMobile := forceMobile s; useLetters := useLetters s;
     darkText := darkText s; started := started s; scrambled := scrambled s;
     inSolvingPhase := inSolvingPhase s; dnf := dnf s; time := time s;
     startTime := startTime s; memoTime := memoTime s;
     interval := interval s; scrambledBoard := scrambledBoard s;
     moveHistory := moveHistory s; undos := undos s;
     inspecting := inspecting s; solves := solves s;
     allSolves := allSolves s; sessionSolves := sessionSolves s; db := v;
     sessionId := sessionId s; game := game s |}.

Definition set_sessionId (v : option Z) (s : State) : State :=
  {| cols := cols s; rows := rows s; custom := custom s; event := event s;
     noRegrips := noRegrips s; darkMode := darkMode s;
     forceMobile := forceMobile s; useLetters := useLetters s;
     darkText := darkText s; started := started s; scrambled := scrambled s;
     inSolvingPhase := inSolvingPhase s; dnf := dnf s; time := time s;
     startTime := startTime s; memoTime := memoTime s;
     interval := interval s; scrambledBoard := scrambledBoard s;
     moveHistory := moveHistory s; undos := undos s;
     inspecting := inspecting s; solves := solves s;
     allSolves := allSolves s; sessionSolves := sessionSolves s; db := db s;
     sessionId := v; game := game s |}.

Definition set_game (v : Game.t Board Tile) (s : State) : State :=
  {| cols := cols s; rows := rows s; custom := custom s; event := event s;
     noRegrips := noRegrips s; darkMode := darkMode s;
     forceMobile := forceMobile s; useLetters := useLetters s;
     darkText := darkText s; started := started s; scrambled := scrambled s;
     inSolvingPhase := inSolvingPhase s; dnf := dnf s; time := time s;
     startTime := startTime s; memoTime := memoTime s;
     interval := interval s; scrambledBoard := scrambledBoard s;
     moveHistory := moveHistory s; undos := undos s;
     inspecting := inspecting s; solves := solves s;
     allSolves := allSolves s; sessionSolves := sessionSolves s; db := db s;
     sessionId := sessionId s; game := v |}.

(** The field initialisers of the class; [game] is attached by the caller. *)
Definition newState (g : Game.t Board Tile) : State :=
  {| cols := 5; rows := 5; custom := false; event := Normal;
     noRegrips := false; darkMode := false; forceMobile := false;
     useLetters := true; darkText := false; started := false;
     scrambled := false; inSolvingPhase := false; dnf := false; time := 0;
     startTime := 0; memoTime := 0; interval := None;
     scrambledBoard := None; moveHistory := []; undos := 0;
     inspecting := false; solves := OwnArray []; allSolves := [];
     sessionSolves := ∅; db := false; sessionId := None; game := g |}.

(** ** The surroundings of the session

    [Date.now()] is a sequence of readings [clock 0, clock 1, ...], one
    consumed per call ([reads] counts the calls made so far); the
    interval timers that are scheduled; the two object stores of the
    [loopover] database ([sessions] rows are their [created] stamps, keys
    1, 2, ...; [solves] rows are [{event, session, solve}]). *)
Record Database := {
  sessions : list Z;
  solvesStore : list (string * option Z * Solve.t Board) }.

Record World := {
  this : State;
  clock : nat -> Z;
  reads : nat;
  timers : list nat;
  nextTimer : nat;
  idb : Database }.

Inductive JsError := TypeError.

(** A call either returns or throws; the fields assigned before a throw stay
    assigned. *)
Inductive Completion (A : Type) :=
  | Returns (a : A) (w : World)
  | Throws (e : JsError) (w : World).
Arguments Returns {A}.
Arguments Throws {A}.

Definition Js (A : Type) := World -> Completion A.

Definition ret {A} (a : A) : Js A := fun w => Returns a w.
Definition bind {A B} (c : Js A) (k : A -> Js B) : Js B :=
  fun w => match c w with
           | Returns a w' => k a w'
           | Throws e w' => Throws e w'
           end.
Definition throw {A} (e : JsError) : Js A := fun w => Throws e w.

Notation "x <- c ;; k" := (bind c (fun x => k))
  (at level 100, c at next level, right associativity).
Notation "c ;; k" := (bind c (fun _ => k))
  (at level 100, right associativity).

(** The world a call leaves behind, returned or thrown. *)
Definition after {A} (c : Completion A) : World :=
  match c with Returns _ w => w | Throws _ w => w end.

Definition get {A} (f : State -> A) : Js A := fun w => Returns (f (this w)) w.
Definition update (f : State -> State) (w : World) : World :=
  {| this := f (this w); clock := clock w; reads := reads w;
     timers := timers w; nextTimer := nextTimer w; idb := idb w |}.
Definition assign (f : State -> State) : Js unit :=
  fun w => Returns tt (update f w).
Definition when (b : bool) (c : Js unit) : Js unit := if b then c else ret tt.

(** [Date.now()] *)
Definition dateNow : Js Z :=
  fun w => Returns (clock w (reads w))
    {| this := this w; clock := clock w; reads := S (reads w); timers := timers w;
       nextTimer := nextTimer w; idb := idb w |}.

(** [setInterval(..., 87)]: a fresh handle, now scheduled. *)
Definition setInterval : Js nat :=
  fun w => Returns (nextTimer w)
    {| this := this w; clock := clock w; reads := reads w;
       timers := timers w ++ [nextTimer w];
       nextTimer := S (nextTimer w); idb := idb w |}.

(** [clearInterval(h)]; [undefined] cancels nothing. *)
Definition clearInterval (h : option nat) : Js unit :=
  fun w => Returns tt
    {| this := this w; clock := clock w; reads := reads w;
       timers := match h with
                 | Some i => filter (fun j => j ≠ i) (timers w)
                 | None => timers w
                 end;
       nextTimer := nextTimer w; idb := idb w |}.

(** Updates of the [game] object. *)
Definition assignGame (f : Game.t Board Tile -> Game.t Board Tile) : Js unit :=
  assign (fun s => set_game (f (game s)) s).


(** ** Getters *)

Definition historyLength (s : State) : Z := Z.of_nat (length (moveHistory s)).

(** [get eventName] (it reads the module's single [state], the instance
    itself). *)
Definition eventName (s : State) : string :=
  pretty (cols s) +:+ "x" +:+ pretty (rows s)
    +:+ match event s with Normal => "" | Fmc => "-fmc" | Blind => "-bld" end
    +:+ (if noRegrips s then "-nrg" else "").

Definition displayTime (s : State) : Z :=
  if inspecting s then
    match at_index (moveHistory s) (historyLength s - undos s) with
    | Some move => Move.time move
    | None => time s
    end
  else time s.

Definition moves (s : State) : Z := historyLength s - undos s.

Definition showUndoRedo (s : State) : bool :=
  bool_decide (event s = Fmc) || inspecting s.

Definition undoable (s : State) : bool := undos s =? historyLength s.

Definition redoable (s : State) : bool := undos s =? 0.

(** ** The database calls

    Every [await] of the class waits on the database.  A write is in the
    store from the call that issues it: the database serves the requests in
    the order in which they were made.  The statements of [handleSolved]
    behind its [await] are an event of their own, [sessionStored], which
    runs when the awaited put resolves; the assignment behind the [await]
    of [reset] is run at the point of the call. *)

(** [db.put("sessions", {created})], the key given to the row. *)
Definition putSession (created : Z) : Js Z :=
  fun w => Returns (Z.of_nat (S (length (sessions (idb w)))))
    {| this := this w; clock := clock w; reads := reads w; timers := timers w;
       nextTimer := nextTimer w;
       idb := {| sessions := sessions (idb w) ++ [created];
                 solvesStore := solvesStore (idb w) |} |}.

(** [db.put("solves", {event, session, solve})] *)
Definition putSolve (row : string * option Z * Solve.t Board) : Js unit :=
  fun w => Returns tt
    {| this := this w; clock := clock w; reads := reads w; timers := timers w;
       nextTimer := nextTimer w;
       idb := {| sessions := sessions (idb w);
                 solvesStore := solvesStore (idb w) ++ [row] |} |}.

(** [db.getAllFromIndex("solves", "event", key)] *)
Definition getAllFromIndex (key : string) : Js (list (Solve.t Board)) :=
  fun w => Returns
    (map snd (filter (fun row => row.1.1 = key) (solvesStore (idb w)))) w.

Context {E : Engine Board Tile}.

(** [{...solve, scramble: new Board(...)}]: reading the members of an absent
    scramble throws. *)
Definition reviveSolve (solve : Solve.t Board) : option (Solve.t Board) :=
  match Solve.scramble solve with
  | Some b =>
      Some (Solve.mk (Solve.time solve) (Solve.moves solve) (Some (clone b))
              (Solve.startTime solve) (Solve.memoTime solve) (Solve.dnf solve))
  | None => None
  end.

(** ** Methods *)

Definition start : Js unit :=
  assign (set_started true);;
  assign (set_time 0);;
  assign (set_memoTime 0);;
  now <- dateNow;;
  assign (set_startTime now);;
  h <- setInterval;;
  assign (set_interval (Some h)).

(** The callback given to [setInterval], run when timer [h] fires. *)
Definition intervalFired (h : nat) : Js unit :=
  fun w =>
    if bool_decide (h ∈ timers w) then
      (now <- dateNow;;
       st <- get startTime;;
       assign (set_time (now - st))) w
    else Returns tt w.

Definition reset (onlyResetState : bool) : Js unit :=
  h <- get interval;;
  clearInterval h;;
  assign (set_started false);;
  assign (set_scrambled false);;
  assign (set_inSolvingPhase false);;
  assign (set_dnf false);;
  assign (set_moveHistory []);;
  assign (set_undos 0);;
  assign (set_time 0);;
  assign (set_memoTime 0);;
  assign (set_inspecting false);;
  key <- get eventName;;
  known <- get sessionSolves;;
  when (bool_decide (known !! key = None))
    (assign (set_sessionSolves (<[key := []]> known)));;
  assign (set_solves (EventArray key));;
  if onlyResetState then ret tt else
  c <- get cols;;
  r <- get rows;;
  assignGame (fun g => Game.set_board (sizedBoard c r (Game.board g)) g);;
  assignGame (Game.set_blind false);;
  nr <- get noRegrips;;
  assignGame (Game.set_noRegrips nr);;
  when nr
    (assignGame (fun g =>
       Game.set_activeTile
         (Some (tileAt (Game.board g) (ceil_half (r - 1)) (ceil_half (c - 1))))
         g));;
  d <- get db;;
  when d
    (key <- get eventName;;
     stored <- getAllFromIndex key;;
     match mapM reviveSolve stored with
     | Some revived => assign (set_allSolves revived)
     | None => ret tt
     end).

Definition scramble (seed : Z) : Js unit :=
  reset true;;
  assignGame (fun g => Game.set_board (scrambleBoard seed (Game.board g)) g);;
  assign (set_scrambled true);;
  g <- get game;;
  assign (set_scrambledBoard (Some (clone (Game.board g))));;
  e <- get event;;
  when (bool_decide (e = Blind)) start.

(** [this.solves.push(solve)] *)
Definition pushSolve (solve : Solve.t Board) : Js unit :=
  r <- get solves;;
  match r with
  | OwnArray l => assign (set_solves (OwnArray (l ++ [solve])))
  | EventArray key =>
      assign (fun s =>
        set_sessionSolves (alter (fun l => l ++ [solve]) key (sessionSolves s)) s)
  end.

(** [!this.sessionId] *)
Definition noSessionId (sid : option Z) : bool :=
  match sid with Some i => i =? 0 | None => true end.

Definition handleSolved : Js unit :=
  h <- get interval;;
  clearInterval h;;
  now <- dateNow;;
  st <- get startTime;;
  assign (set_time (now - st));;
  assign (set_started false);;
  assign (set_scrambled false);;
  assign (set_inSolvingPhase false);;
  s <- get id;;
  let solve :=
    Solve.mk (time s) (moveHistory s) (scrambledBoard s) (startTime s)
      (if 0 <? memoTime s then Some (memoTime s) else None)
      (if dnf s then Some true else None) in
  pushSolve solve;;
  assign (fun s => set_allSolves (allSolves s ++ [solve]) s);;
  d <- get db;;
  when d
    (sid <- get sessionId;;
     if noSessionId sid then
       created <- dateNow;;
       key <- putSession created;;
       ret tt
     else
       name <- get eventName;;
       sid <- get sessionId;;
       putSolve (name, sid, solve)).

(** What is left of [handleSolved] behind
    [this.sessionId = await this.db.put("sessions", ...)]: it runs when the
    put resolves with the [key] of the new row, on the session as it is by
    then; [solve] is the record built by the call that waits. *)
Definition sessionStored (key : Z) (solve : Solve.t Board) : Js unit :=
  assign (set_sessionId (Some key));;
  name <- get eventName;;
  sid <- get sessionId;;
  putSolve (name, sid, solve).

Definition done : Js unit :=
  assignGame (Game.set_blind false);;
  g <- get game;;
  assign (set_dnf (negb (isSolved (Game.board g))));;
  handleSolved.

(** The body of the [for] loop of [handleMove]: one unit entry is pushed, its
    stamp read from the clock at that push. *)
Definition pushUnit (move : Move.t) : Js unit :=
  now <- dateNow;;
  st <- get startTime;;
  assign (fun s =>
    set_moveHistory
      (moveHistory s
         ++ [Move.mk (Move.axis move) (Move.index move) (Z.sgn (Move.n move))
               (now - st)]) s).

(** [for (let i = k; i--;) body] for an integer [k >= 0]. *)
Fixpoint times (k : nat) (body : Js unit) : Js unit :=
  match k with
  | O => ret tt
  | S k' => body;; times k' body
  end.

Definition handleMove (move : Move.t) (isPlayerMove : bool) : Js unit :=
  if negb isPlayerMove then ret tt else
  sc <- get scrambled;;
  stt <- get started;;
  when (sc && negb stt) start;;
  stt <- get started;;
  if negb stt then ret tt else
  u <- get undos;;
  when (0 <? u)
    (assign (fun s =>
       set_moveHistory (splice (historyLength s - undos s) (undos s) (moveHistory s)) s);;
     assign (set_undos 0));;
  times (Z.abs_nat (Move.n move)) (pushUnit move);;
  e <- get event;;
  if bool_decide (e = Blind) then
    isp <- get inSolvingPhase;;
    when (negb isp)
      (assign (set_inSolvingPhase true);;
       assignGame (Game.set_blind true);;
       now <- dateNow;;
       st <- get startTime;;
       assign (set_memoTime (now - st)))
  else
    g <- get game;;
    when (isSolved (Game.board g)) handleSolved.

(** Modelled from the spec: [game.animatedMove] of [./game].  The engine
    applies the move to the board in place and reports it through the move
    callback as not player-originated; the stamp of a reported move is
    overwritten before the move is logged. *)
Definition animatedMove (axis : Axis) (index n : Z) : Js unit :=
  assignGame (fun g => Game.set_board (applyMove axis index n (Game.board g)) g);;
  handleMove (Move.mk axis index n 0) false.

(** Modelled from the spec: a move made by the player on the board.  The
    engine applies it and reports it as player-originated. *)
Definition playerMove (axis : Axis) (index n : Z) : Js unit :=
  assignGame (fun g => Game.set_board (applyMove axis index n (Game.board g)) g);;
  handleMove (Move.mk axis index n 0) true.

Definition undo : Js unit :=
  s <- get id;;
  if undos s =? historyLength s then ret tt else
  match at_index (moveHistory s) (historyLength s - undos s - 1) with
  | None => throw TypeError
  | Some move =>
      animatedMove (Move.axis move) (Move.index move) (- Move.n move);;
      assign (fun s => set_undos (undos s + 1) s)
  end.

Definition redo : Js unit :=
  s <- get id;;
  if undos s =? 0 then ret tt else
  match at_index (moveHistory s) (historyLength s - undos s) with
  | None => throw TypeError
  | Some move =>
      animatedMove (Move.axis move) (Move.index move) (Move.n move);;
      assign (fun s => set_undos (undos s - 1) s)
  end.

Definition inspect (solve : Solve.t Board) : Js unit :=
  reset true;;
  assign (set_inspecting true);;
  assign (set_time (Solve.time solve));;
  assign (set_dnf (match Solve.dnf solve with Some b => b | None => false end));;
  match Solve.scramble solve with
  | None => throw TypeError
  | Some b => assignGame (Game.set_board (clone b))
  end;;
  assign (set_moveHistory (Solve.moves solve));;
  assign (set_undos (Z.of_nat (length (Solve.moves solve)))).

Definition changeSize (size : Z) : Js unit :=
  assign (set_custom false);;
  assign (set_rows size);;
  assign (set_cols size);;
  reset false.

(** [localStorage.loopover], parsed: [None] when the entry is absent. *)
Definition loadFromLocalStorage (loopover : option StoredState.t) : Js unit :=
  match loopover with
  | None => ret tt
  | Some state =>
      if negb (StoredState.version state =? 0) then ret tt else
      assign (set_cols (StoredState.cols state));;
      assign (set_rows (StoredState.rows state));;
      c <- get cols;;
      r <- get rows;;
      assign (set_custom (negb (c =? r) || (10 <? c) && negb (c =? 20)));;
      assign (set_event (StoredState.event state));;
      from_option (fun v => assign (set_noRegrips v)) (ret tt)
        (StoredState.noRegrips state);;
      from_option (fun v => assign (set_darkMode v)) (ret tt)
        (StoredState.darkMode state);;
      from_option (fun v => assign (set_forceMobile v)) (ret tt)
        (StoredState.forceMobile state);;
      from_option (fun v => assign (set_useLetters v)) (ret tt)
        (StoredState.useLetters state);;
      from_option (fun v => assign (set_darkText v)) (ret tt)
        (StoredState.darkText state)
  end.

Definition serialize (s : State) : StoredState.t :=
  {| StoredState.version := 0;
     StoredState.cols := cols s;
     StoredState.rows := rows s;
     StoredState.event := event s;
     StoredState.noRegrips := if noRegrips s then Some true else None;
     StoredState.darkText := if darkText s then Some true else None;
     StoredState.useLetters := if useLetters s then None else Some false;
     StoredState.forceMobile := if forceMobile s then Some true else None;
     StoredState.darkMode := if darkMode s then Some true else None |}.

(** The watcher of [cols], [rows], [event] and [noRegrips].  The session
    holds the two dimensions at integer values, as the size controls write
    them; what the clamp makes of any other number is [clampSize]. *)
Definition optionsWatcher : Js unit :=
  assign (fun s => set_cols (clampDimension (cols s)) s);;
  assign (fun s => set_rows (clampDimension (rows s)) s);;
  c <- get cols;;
  r <- get rows;;
  assignGame (fun g => Game.set_board (sizedBoard c r (Game.board g)) g);;
  reset false.

(** The continuation of [openDB]. *)
Definition dbOpened : Js unit :=
  assign (set_db true);;
  reset false.


(** ** Event sequences

    What can happen to the session: a call of one of its methods, a move
    reported by the engine, a timer firing, a write of the interface to one
    of the watched fields, a watcher running, a pending put of
    [handleSolved] resolving. *)
Inductive Op :=
  | OpScramble (seed : Z)
  | OpReset (onlyResetState : bool)
  | OpDone
  | OpUndo
  | OpRedo
  | OpInspect (solve : Solve.t Board)
  | OpChangeSize (size : Z)
  | OpHandleMove (move : Move.t) (isPlayerMove : bool)
  | OpPlayerMove (axis : Axis) (index n : Z)
  | OpIntervalFired (h : nat)
  | OpLoadFromLocalStorage (loopover : option StoredState.t)
  | OpAssignEvent (e : EventType)
  | OpAssignNoRegrips (b : bool)
  | OpAssignCols (c : Z)
  | OpAssignRows (r : Z)
  | OpOptionsWatcher
  | OpDbOpened
  | OpSessionStored (key : Z) (solve : Solve.t Board).

Definition exec (op : Op) : Js unit :=
  match op with
  | OpScramble seed => scramble seed
  | OpReset onlyResetState => reset onlyResetState
  | OpDone => done
  | OpUndo => undo
  | OpRedo => redo
  | OpInspect solve => inspect solve
  | OpChangeSize size => changeSize size
  | OpHandleMove move isPlayerMove => handleMove move isPlayerMove
  | OpPlayerMove axis index n => playerMove axis index n
  | OpIntervalFired h => intervalFired h
  | OpLoadFromLocalStorage loopover => loadFromLocalStorage loopover
  | OpAssignEvent e => assign (set_event e)
  | OpAssignNoRegrips b => assign (set_noRegrips b)
  | OpAssignCols c => assign (set_cols c)
  | OpAssignRows r => assign (set_rows r)
  | OpOptionsWatcher => optionsWatcher
  | OpDbOpened => dbOpened
  | OpSessionStored key solve => sessionStored key solve
  end.

(** Events are handled one after the other; an exception ends the handler
    that threw and the next event finds the fields as they were left. *)
Fixpoint run (ops : list Op) (w : World) : World :=
  match ops with
  | [] => w
  | op :: rest => run rest (after (exec op w))
  end.

(** The module's start: [new State()], no clock reading taken, no timer. *)
Definition boot (g : Game.t Board Tile) (c : nat -> Z) (d : Database) : World :=
  {| this := newState g; clock := c; reads := 0; timers := []; nextTimer := 0;
     idb := d |}.

Definition reachable (w : World) : Prop :=
  exists g c d ops, run ops (boot g c d) = w.

(** [0 <= undoCursor <= moveLog.length] *)
Definition cursor_in_bounds (s : State) : Prop :=
  0 <= undos s <= historyLength s.

(** At most the timer held in [interval] is scheduled, and none while the
    session is not started. *)
Definition timers_ok (w : World) : Prop :=
  (forall h, h ∈ timers w -> interval (this w) = Some h) /\
  (started (this w) = false -> timers w = []).

Definition session_ok (w : World) : Prop :=
  cursor_in_bounds (this w) /\ timers_ok w.

(** ** The steps of [handleMove] on a player's move, as world transformers *)

(** The first guard: a waiting scramble starts the timer. *)
Definition timed (w : World) : World :=
  if scrambled (this w) && negb (started (this w)) then after (start w) else w.

(** The move passes both guards of [handleMove]. *)
Definition accepted (s : State) : bool := scrambled s || started s.

(** The abandoned redo branch is cut off. *)
Definition truncated (w : World) : World :=
  if 0 <? undos (this w) then
    update (set_undos 0)
      (update (fun s =>
         set_moveHistory
           (splice (historyLength s - undos s) (undos s) (moveHistory s)) s) w)
  else w.

(** The entries that [k] rounds of the loop push when the clock has been
    read [r] times and the session started at [st]. *)
Fixpoint unitEntries (move : Move.t) (c : nat -> Z) (r : nat) (st : Z) (k : nat)
  : list Move.t :=
  match k with
  | O => []
  | S k' =>
      Move.mk (Move.axis move) (Move.index move) (Z.sgn (Move.n move)) (c r - st)
        :: unitEntries move c (S r) st k'
  end.

Definition logged (move : Move.t) (k : nat) (w : World) : World :=
  {| this :=
       set_moveHistory
         (moveHistory (this w)
            ++ unitEntries move (clock w) (reads w) (startTime (this w)) k)
         (this w);
     clock := clock w; reads := (reads w + k)%nat; timers := timers w;
     nextTimer := nextTimer w; idb := idb w |}.

(** The log work of an accepted move: guard, cut, push. *)
Definition recorded (move : Move.t) (w : World) : World :=
  logged move (Z.abs_nat (Move.n move)) (truncated (timed w)).

(** The blind branch on the first move: the memorisation ends. *)
Definition memoStamped (w : World) : World :=
  {| this :=
       set_memoTime (clock w (reads w) - startTime (this w))
         (set_game (Game.set_blind true (game (this w)))
            (set_inSolvingPhase true (this w)));
     clock := clock w; reads := S (reads w); timers := timers w;
     nextTimer := nextTimer w; idb := idb w |}.

(** The record that [handleSolved] builds in world [w]. *)
Definition solveOf (w : World) : Solve.t Board :=
  Solve.mk (clock w (reads w) - startTime (this w)) (moveHistory (this w))
    (scrambledBoard (this w)) (startTime (this w))
    (if 0 <? memoTime (this w) then Some (memoTime (this w)) else None)
    (if dnf (this w) then Some true else None).

(** The world after one [undo] of [move], and after one [redo]. *)
Definition stepped (n : Z) (d : Z) (move : Move.t) (w : World) : World :=
  update (fun s => set_undos (undos s + d) s)
    (update (fun s =>
       set_game
         (Game.set_board
            (applyMove (Move.axis move) (Move.index move) n (Game.board (game s)))
            (game s)) s) w).

(** The entries that an accepted [move] adds in world [w]. *)
Definition newEntries (move : Move.t) (w : World) : list Move.t :=
  unitEntries move (clock w) (reads (timed w)) (startTime (this (timed w)))
    (Z.abs_nat (Move.n move)).

(** ** Kinds of events *)

(** Reported to [handleMove] as player-originated. *)
Definition playerEvent (op : Op) : bool :=
  match op with
  | OpPlayerMove _ _ _ => true
  | OpHandleMove _ isPlayerMove => isPlayerMove
  | _ => false
  end.

(** What happens during a solve or a replay short of an explicit call that
    ends or restarts it: moves, undo and redo, timer firings. *)
Definition playing (op : Op) : bool :=
  match op with
  | OpPlayerMove _ _ _ | OpHandleMove _ _ | OpUndo | OpRedo
  | OpIntervalFired _ => true
  | _ => false
  end.

Definition passive (op : Op) : bool := playing op && negb (playerEvent op).


Definition boardOf (w : World) : Board := Game.board (game (this w)).

(** Some player's move of the sequence leaves the board solved. *)
Fixpoint solvedAlong (ops : list Op) (w : World) : bool :=
  match ops with
  | [] => false
  | op :: rest =>
      playerEvent op && isSolved (boardOf (after (exec op w)))
      || solvedAlong rest (after (exec op w))
  end.

(** ** Notions used to state the properties of runs *)

(** The fields that undo, redo, a timer firing and a move that is not the
    player's leave alone. *)
Definition quiet (w w' : World) : Prop :=
  started (this w') = started (this w)
  /\ scrambled (this w') = scrambled (this w)
  /\ inSolvingPhase (this w') = inSolvingPhase (this w)
  /\ event (this w') = event (this w)
  /\ memoTime (this w') = memoTime (this w)
  /\ startTime (this w') = startTime (this w)
  /\ allSolves (this w') = allSolves (this w)
  /\ inspecting (this w') = inspecting (this w)
  /\ moveHistory (this w') = moveHistory (this w)
  /\ Game.blind (game (this w')) = Game.blind (game (this w))
  /\ clock w' = clock w
  /\ timers w' = timers w
  /\ interval (this w') = interval (this w).

(** The number of unit entries that an event asks for. *)
Definition unitCount (op : Op) : nat :=
  match op with
  | OpPlayerMove _ _ n => Z.abs_nat n
  | OpHandleMove move _ => Z.abs_nat (Move.n move)
  | _ => O
  end.

(** The world with the board replaced, as the engine leaves it after
    applying a move. *)
Definition with_board (b : Board) (w : World) : World :=
  update (fun s => set_game (Game.set_board b (game s)) s) w.



(** A solve in a mode other than blind that waits for the solved board,
    and a session that has been finalised and not scrambled again. *)
Definition awaiting (w : World) : Prop :=
  event (this w) <> Blind /\ scrambled (this w) = true.

Definition finalised (w : World) : Prop :=
  scrambled (this w) = false /\ started (this w) = false.

(** A replay of [solve]: the log and the total time are the solve's, no
    timer runs. *)
Definition replaying (solve : Solve.t Board) (w : World) : Prop :=
  inspecting (this w) = true
  /\ started (this w) = false /\ scrambled (this w) = false
  /\ moveHistory (this w) = Solve.moves solve
  /\ time (this w) = Solve.time solve
  /\ session_ok w.

(** ** The remaining members of the class *)

(** [db.getAll("solves")] *)
Definition getAll : Js (list (string * option Z * Solve.t Board)) :=
  fun w => Returns (solvesStore (idb w)) w.

(** The [reduce] of [getSolvesByEvent]:
    [(solves[event] = solves[event] ?? []).push(solve)] for every row, from an
    empty object. *)
Definition groupByEvent (stored : list (string * option Z * Solve.t Board))
  : gmap string (list (Solve.t Board)) :=
  fold_left
    (fun acc row => <[row.1.1 := default [] (acc !! row.1.1) ++ [row.2]]> acc)
    stored ∅.

Definition getSolvesByEvent : Js (gmap string (list (Solve.t Board))) :=
  d <- get db;;
  if negb d then ret ∅ else
  stored <- getAll;;
  ret (groupByEvent stored).

(** What reading [this.solves] gives. *)
Definition solvesList (s : State) : list (Solve.t Board) :=
  match solves s with
  | OwnArray l => l
  | EventArray key => default [] (sessionSolves s !! key)
  end.

(** The board after the engine has applied the moves in order. *)
Definition applyMoves (ms : list Move.t) (b : Board) : Board :=
  fold_left
    (fun b move => applyMove (Move.axis move) (Move.index move) (Move.n move) b)
    ms b.

(** The solves stored under an event name, in the order of the store. *)
Definition storedUnder (key : string)
    (stored : list (string * option Z * Solve.t Board)) : list (Solve.t Board) :=
  map snd (filter (fun row => row.1.1 = key) stored).

(** [this.solves] names an array that exists: its own, or one stored in
    [sessionSolves]. *)
Definition alias_ok (s : State) : Prop :=
  match solves s with
  | OwnArray _ => True
  | EventArray key => is_Some (sessionSolves s !! key)
  end.

(** A solve outside blind mode that waits for the solved board, started
    from the scramble snapshot [sb], with no [dnf] and no memorisation
    time. *)
Definition solve_in_progress (sb : Board) (w : World) : Prop :=
  awaiting w /\ dnf (this w) = false /\ memoTime (this w) = 0
  /\ scrambledBoard (this w) = Some sb.

End Session.

Arguments Returns {Board Tile A}.
Arguments Throws {Board Tile A}.

Notation "x <- c ;; k" := (bind c (fun x => k))
  (at level 100, c at next level, right associativity).
Notation "c ;; k" := (bind c (fun _ => k))
  (at level 100, right associativity).

(** ** A small engine to run the session on

    The board is a pair of counters, one per axis; a move adds to the
    counter of its axis and the board is solved when both are zero. *)
Definition counterEngine : Engine (Z * Z) Z :=
  {| applyMove := fun axis index n b =>
       match axis with Row => (b.1 + n, b.2) | Col => (b.1, b.2 + n) end;
     isSolved := fun b => (b.1 =? 0) && (b.2 =? 0);
     clone := fun b => b;
     scrambleBoard := fun seed b => (seed, - seed);
     sizedBoard := fun c r b => (0, 0);
     tileAt := fun b r c => r + c |}.

Definition counterGame : Game.t (Z * Z) Z := Game.mk (0, 0) false false None.

(** A clock that advances by one millisecond at every reading, and one that
    stands still. *)
Definition tickingClock : nat -> Z := Z.of_nat.
Definition frozenClock : nat -> Z := fun _ => 1000.

Definition emptyDb : @Database (Z * Z) := {| sessions := []; solvesStore := [] |}.

Definition counterBoot (c : nat -> Z) : @World (Z * Z) Z :=
  boot counterGame c emptyDb.

(** Sessions on the small engine: a solve under way with one move undone, a
    session switched to blind mode, and a recorded solve to inspect. *)
Definition solveUnderWay : @World (Z * Z) Z :=
  @run _ _ counterEngine
    [OpScramble 3; OpPlayerMove Row 0 2; OpPlayerMove Col 1 (-1); OpUndo]
    (counterBoot tickingClock).

Definition blindSession : @World (Z * Z) Z :=
  @run _ _ counterEngine [OpAssignEvent Blind; OpOptionsWatcher]
    (counterBoot tickingClock).

Definition recordedSolve : Solve.t (Z * Z) :=
  Solve.mk 900 [Move.mk Row 0 1 100; Move.mk Col 0 1 500] (Some (1, 1)) 0
    None None.


(** A store that holds two solves of the default event and one of another
    event, and a session opened on it with a solve under way. *)
Definition storedDb : @Database (Z * Z) :=
  {| sessions := [1000];
     solvesStore :=
       [("5x5"%string, Some 1, recordedSolve);
        ("4x4"%string, Some 1, recordedSolve);
        ("5x5"%string, Some 1,
         Solve.mk 700 [] (Some (2, 0)) 50 None (Some true))] |}.

Definition storedSession : @World (Z * Z) Z :=
  @run _ _ counterEngine [OpDbOpened; OpScramble 3; OpPlayerMove Row 0 2]
    (boot counterGame tickingClock storedDb).

(** * Properties *)

Ltac js :=
  unfold undo, redo, animatedMove, handleMove, done, inspect, scramble, reset,
    start, handleSolved, pushSolve, playerMove, changeSize, optionsWatcher,
    dbOpened, intervalFired, loadFromLocalStorage, assignGame, clearInterval,
    setInterval, dateNow, putSession, putSolve, getAllFromIndex, when, bind,
    ret, get, assign, throw, after, update;
  cbn.

(** Runs the monad and the field assignments, and nothing else. *)
Ltac sim :=
  cbv beta iota delta
    [
      cols rows custom event noRegrips darkMode forceMobile useLetters
      darkText started scrambled inSolvingPhase dnf time startTime
      memoTime interval scrambledBoard moveHistory undos inspecting solves
      allSolves sessionSolves db sessionId game set_cols set_rows
      set_custom set_event set_noRegrips set_darkMode set_forceMobile
      set_useLetters set_darkText set_started set_scrambled
      set_inSolvingPhase set_dnf set_time set_startTime set_memoTime
      set_interval set_scrambledBoard set_moveHistory set_undos
      set_inspecting set_solves set_allSolves set_sessionSolves set_db
      set_sessionId set_game this clock reads timers nextTimer idb
      sessions solvesStore Game.board Game.blind Game.noRegrips
      Game.activeTile Game.set_board Game.set_blind Game.set_noRegrips
      Game.set_activeTile bind ret get assign update when throw after
      dateNow setInterval clearInterval assignGame putSession putSolve
      getAllFromIndex andb orb negb boardOf historyLength from_option id
    ].
Ltac sim_in H :=
  cbv beta iota delta
    [
      cols rows custom event noRegrips darkMode forceMobile useLetters
      darkText started scrambled inSolvingPhase dnf time startTime
      memoTime interval scrambledBoard moveHistory undos inspecting solves
      allSolves sessionSolves db sessionId game set_cols set_rows
      set_custom set_event set_noRegrips set_darkMode set_forceMobile
      set_useLetters set_darkText set_started set_scrambled
      set_inSolvingPhase set_dnf set_time set_startTime set_memoTime
      set_interval set_scrambledBoard set_moveHistory set_undos
      set_inspecting set_solves set_allSolves set_sessionSolves set_db
      set_sessionId set_game this clock reads timers nextTimer idb
      sessions solvesStore Game.board Game.blind Game.noRegrips
      Game.activeTile Game.set_board Game.set_blind Game.set_noRegrips
      Game.set_activeTile bind ret get assign update when throw after
      dateNow setInterval clearInterval assignGame putSession putSolve
      getAllFromIndex andb orb negb boardOf historyLength from_option id
    ] in H.

(** Splits on an innermost condition that blocks the run. *)
Ltac cond :=
  match goal with
  | |- context [match ?c with _ => _ end] =>
      lazymatch c with
      | context [match _ with _ => _ end] => fail
      | _ => destruct c eqn:?
      end
  end.

Ltac run_js := sim; repeat (cond; sim).

(** Opens a world down to the fields of the session and of the game. *)
Ltac expose w :=
  let s := fresh "s" in
  destruct w as [s vclock vreads vtimers vnextTimer vidb];
  destruct s as [vcols vrows vcustom vevent vnoRegrips vdarkMode vforceMobile
                 vuseLetters vdarkText vstarted vscrambled vinSolvingPhase vdnf
                 vtime vstartTime vmemoTime vinterval vscrambledBoard
                 vmoveHistory vundos vinspecting vsolves vallSolves
                 vsessionSolves vdb vsessionId vgame];
  destruct vgame as [vboard vblind vgnoRegrips vactiveTile].

Section Properties.

Context {Board Tile : Type} {E : Engine Board Tile}.
Implicit Types (w : @World Board Tile) (s : @State Board Tile).

Lemma times_pushUnit move k w :
  times k (pushUnit move) w = Returns tt (logged move k w).
Proof.
  revert w. induction k as [|k IH]; intros w.
  - expose w. cbn. unfold ret, logged. cbn. by rewrite app_nil_r, Nat.add_0_r.
  - cbn [times]. unfold bind at 1. expose w.
    unfold pushUnit. cbv beta iota delta [bind dateNow get assign update]. cbn.
    rewrite IH. unfold logged. cbn.
    rewrite <- app_assoc. cbn. do 2 f_equal. lia.
Qed.

Lemma unitEntries_length move c r st k :
  length (unitEntries move c r st k) = k.
Proof. revert r. induction k as [|k IH]; intros r; cbn; [done|]. by rewrite IH. Qed.

Lemma unitEntries_lookup move c r st k i :
  (i < k)%nat ->
  unitEntries move c r st k !! i
  = Some (Move.mk (Move.axis move) (Move.index move) (Z.sgn (Move.n move))
            (c (r + i)%nat - st)).
Proof.
  revert r i. induction k as [|k IH]; intros r i Hi; [lia|].
  destruct i as [|i]; cbn.
  - by rewrite Nat.add_0_r.
  - rewrite IH by lia. replace (S r + i)%nat with (r + S i)%nat by lia. reflexivity.
Qed.

(** ** [handleMove], branch by branch *)

Lemma handleMove_not_player move w : handleMove move false w = Returns tt w.
Proof. reflexivity. Qed.

Lemma timed_started w : started (this (timed w)) = accepted (this w).
Proof.
  unfold timed, accepted.
  destruct (scrambled (this w)) eqn:H1, (started (this w)) eqn:H2; cbn; done.
Qed.

Lemma handleMove_refused move w :
  accepted (this w) = false -> handleMove move true w = Returns tt w.
Proof.
  unfold accepted. intros H. apply orb_false_elim in H as [H1 H2].
  expose w. cbn in H1, H2. subst. reflexivity.
Qed.

Lemma recorded_frame move w :
  event (this (recorded move w)) = event (this w)
  /\ inSolvingPhase (this (recorded move w)) = inSolvingPhase (this w)
  /\ game (this (recorded move w)) = game (this w)
  /\ memoTime (this (recorded move w))
     = (if scrambled (this w) && negb (started (this w)) then 0
        else memoTime (this w))
  /\ allSolves (this (recorded move w)) = allSolves (this w)
  /\ scrambled (this (recorded move w)) = scrambled (this w)
  /\ inspecting (this (recorded move w)) = inspecting (this w)
  /\ started (this (recorded move w)) = accepted (this w)
  /\ clock (recorded move w) = clock w.
Proof.
  expose w. unfold recorded, logged, truncated, timed, accepted. cbn.
  destruct vscrambled, vstarted; cbn; case_match; cbn; done.
Qed.

Lemma handleMove_accepted move w :
  accepted (this w) = true ->
  handleMove move true w
  = if bool_decide (event (this w) = Blind) then
      if inSolvingPhase (this w) then Returns tt (recorded move w)
      else Returns tt (memoStamped (recorded move w))
    else if isSolved (boardOf w) then handleSolved (recorded move w)
    else Returns tt (recorded move w).
Proof.
  intros Hacc. expose w. unfold accepted in Hacc. sim_in Hacc.
  unfold handleMove, recorded, truncated, timed, start. sim.
  destruct vscrambled, vstarted; try discriminate; sim;
    (destruct (0 <? vundos); sim;
      rewrite times_pushUnit; unfold logged, memoStamped; sim;
      destruct (bool_decide (vevent = Blind)), vinSolvingPhase,
        (isSolved vboard); reflexivity).
Qed.

(** ** Finalisation *)

Lemma handleSolved_returns w :
  handleSolved w = Returns tt (after (handleSolved w)).
Proof.
  expose w. unfold handleSolved, pushSolve. sim.
  destruct vsolves, vdb, (noSessionId vsessionId); reflexivity.
Qed.

Lemma handleSolved_effect w :
  let w' := after (handleSolved w) in
  started (this w') = false /\ scrambled (this w') = false
  /\ inSolvingPhase (this w') = false
  /\ allSolves (this w') = allSolves (this w) ++ [solveOf w]
  /\ time (this w') = clock w (reads w) - startTime (this w)
  /\ moveHistory (this w') = moveHistory (this w)
  /\ undos (this w') = undos (this w)
  /\ memoTime (this w') = memoTime (this w)
  /\ event (this w') = event (this w)
  /\ game (this w') = game (this w)
  /\ inspecting (this w') = inspecting (this w)
  /\ dnf (this w') = dnf (this w)
  /\ clock w' = clock w.
Proof.
  expose w. unfold handleSolved, pushSolve, solveOf. sim.
  destruct vsolves, vdb, (noSessionId vsessionId); sim; repeat split; reflexivity.
Qed.

(** ** Array facts *)

Lemma splice_tail {A} (l : list A) (k : Z) :
  0 <= k <= Z.of_nat (length l) ->
  splice (Z.of_nat (length l) - k) k l = take (Z.to_nat (Z.of_nat (length l) - k)) l.
Proof.
  intros Hk. unfold splice.
  destruct (Z.of_nat (length l) - k <? 0) eqn:Hneg; [lia|].
  rewrite Z.min_l by lia. rewrite Z.max_l by lia.
  rewrite Z.min_l by lia.
  replace (Z.of_nat (length l) - k + k) with (Z.of_nat (length l)) by lia.
  rewrite Nat2Z.id, drop_all. apply app_nil_r.
Qed.

Lemma at_index_Some {A} (l : list A) (i : Z) :
  0 <= i < Z.of_nat (length l) -> exists x, at_index l i = Some x.
Proof.
  intros Hi. unfold at_index. destruct (i <? 0) eqn:Hneg; [lia|].
  apply lookup_lt_is_Some_2. lia.
Qed.

Lemma at_index_length {A} (l : list A) : at_index l (Z.of_nat (length l)) = None.
Proof.
  unfold at_index. destruct (Z.of_nat (length l) <? 0) eqn:Hneg; [done|].
  apply lookup_ge_None_2. lia.
Qed.

(** ** The invariants of the session *)

Lemma filter_all_eq (l : list nat) i :
  (forall h, h ∈ l -> Some i = Some h) -> filter (fun j => j ≠ i) l = [].
Proof.
  induction l as [|a l IH]; intros H; [done|].
  rewrite filter_cons. destruct (decide (a ≠ i)) as [Hn|Hn].
  - exfalso. apply Hn. specialize (H a ltac:(left)). congruence.
  - apply IH. intros h Hh. apply H. by right.
Qed.

(** [clearInterval(this.interval)] leaves no timer scheduled. *)
Lemma cleared (l : list nat) (h : option nat) :
  (forall k, k ∈ l -> h = Some k) ->
  match h with
  | Some i => filter (fun j => j ≠ i) l
  | None => l
  end = [].
Proof.
  intros H. destruct h as [i|].
  - apply filter_all_eq. auto.
  - destruct l as [|a l]; [done|]. specialize (H a ltac:(left)). done.
Qed.

Ltac ok_start w :=
  intros [Hc [Ht1 Ht2]]; expose w;
  unfold session_ok, cursor_in_bounds, timers_ok in *;
  sim_in Hc; sim_in Ht1; sim_in Ht2;
  pose proof (cleared _ _ Ht1) as Hcl.

Ltac ok_timer Hcl Ht1 Ht2 :=
  let h := fresh "h" in let Hh := fresh "Hh" in
  intros h Hh; try (rewrite Ht2 in Hh by reflexivity); cbn [app] in Hh;
  first [ by apply elem_of_nil in Hh
        | apply list_elem_of_singleton in Hh; by subst
        | by apply Ht1 ].

Ltac ok_run Hcl := sim; rewrite ?Hcl; repeat (cond; sim; rewrite ?Hcl).

Ltac ok_finish Hcl Ht1 Ht2 :=
  sim; rewrite ?Hcl; cbn [length app];
  repeat split; try done; try lia; try (by apply Ht2); try ok_timer Hcl Ht1 Ht2.

Lemma boot_ok (g : Game.t Board Tile) c d : session_ok (boot g c d).
Proof.
  unfold session_ok, cursor_in_bounds, timers_ok, historyLength. cbn.
  repeat split; try done. intros h Hh. by apply elem_of_nil in Hh.
Qed.

Lemma reset_ok b w : session_ok w -> session_ok (after (reset b w)).
Proof.
  ok_start w. unfold reset. ok_run Hcl; ok_finish Hcl Ht1 Ht2.
Qed.

Lemma scramble_ok seed w : session_ok w -> session_ok (after (scramble seed w)).
Proof.
  ok_start w. unfold scramble, reset, start. ok_run Hcl; ok_finish Hcl Ht1 Ht2.
Qed.

Lemma handleSolved_ok w : session_ok w -> session_ok (after (handleSolved w)).
Proof.
  ok_start w. unfold handleSolved, pushSolve. ok_run Hcl; ok_finish Hcl Ht1 Ht2.
Qed.

Lemma done_ok w : session_ok w -> session_ok (after (done w)).
Proof.
  ok_start w. unfold done, handleSolved, pushSolve.
  ok_run Hcl; ok_finish Hcl Ht1 Ht2.
Qed.

Lemma undo_ok w : session_ok w -> session_ok (after (undo w)).
Proof.
  ok_start w. unfold undo, animatedMove, handleMove.
  ok_run Hcl; ok_finish Hcl Ht1 Ht2.
Qed.

Lemma redo_ok w : session_ok w -> session_ok (after (redo w)).
Proof.
  ok_start w. unfold redo, animatedMove, handleMove.
  ok_run Hcl; ok_finish Hcl Ht1 Ht2.
Qed.

Lemma inspect_ok solve w : session_ok w -> session_ok (after (inspect solve w)).
Proof.
  ok_start w. unfold inspect, reset. ok_run Hcl; ok_finish Hcl Ht1 Ht2.
Qed.

Lemma changeSize_ok size w : session_ok w -> session_ok (after (changeSize size w)).
Proof.
  ok_start w. unfold changeSize, reset. ok_run Hcl; ok_finish Hcl Ht1 Ht2.
Qed.

Lemma optionsWatcher_ok w : session_ok w -> session_ok (after (optionsWatcher w)).
Proof.
  ok_start w. unfold optionsWatcher, reset. ok_run Hcl; ok_finish Hcl Ht1 Ht2.
Qed.

Lemma dbOpened_ok w : session_ok w -> session_ok (after (dbOpened w)).
Proof.
  ok_start w. unfold dbOpened, reset. ok_run Hcl; ok_finish Hcl Ht1 Ht2.
Qed.

Lemma intervalFired_ok h w : session_ok w -> session_ok (after (intervalFired h w)).
Proof.
  ok_start w. unfold intervalFired. ok_run Hcl; ok_finish Hcl Ht1 Ht2.
Qed.

Lemma loadFromLocalStorage_frame loopover w :
  let w' := after (loadFromLocalStorage loopover w) in
  undos (this w') = undos (this w)
  /\ moveHistory (this w') = moveHistory (this w)
  /\ interval (this w') = interval (this w)
  /\ started (this w') = started (this w)
  /\ timers w' = timers w.
Proof.
  destruct loopover as [state|]; [|done]. unfold loadFromLocalStorage.
  destruct (StoredState.version state =? 0); [|done]. cbn [negb].
  destruct (StoredState.noRegrips state), (StoredState.darkMode state),
    (StoredState.forceMobile state), (StoredState.useLetters state),
    (StoredState.darkText state); cbn; done.
Qed.

Lemma loadFromLocalStorage_ok loopover w :
  session_ok w -> session_ok (after (loadFromLocalStorage loopover w)).
Proof.
  destruct (loadFromLocalStorage_frame loopover w) as (Hu & Hl & Hi & Hs & Ht).
  unfold session_ok, cursor_in_bounds, timers_ok, historyLength.
  by rewrite Hu, Hl, Hi, Hs, Ht.
Qed.

Lemma recorded_ok move w : session_ok w -> session_ok (recorded move w).
Proof.
  ok_start w. unfold recorded, logged, truncated, timed, start.
  ok_run Hcl; rewrite ?length_app; ok_finish Hcl Ht1 Ht2.
Qed.

Lemma memoStamped_ok w : session_ok w -> session_ok (memoStamped w).
Proof. ok_start w. unfold memoStamped. ok_run Hcl; ok_finish Hcl Ht1 Ht2. Qed.

Lemma handleMove_ok move isPlayerMove w :
  session_ok w -> session_ok (after (handleMove move isPlayerMove w)).
Proof.
  intros Hok. destruct isPlayerMove; [|done].
  destruct (accepted (this w)) eqn:Hacc.
  - rewrite handleMove_accepted by done.
    pose proof (recorded_ok move w Hok).
    repeat case_match; cbn [after];
      lazymatch goal with
      | |- session_ok (memoStamped _) => exact (memoStamped_ok _ H)
      | |- session_ok (after (handleSolved _)) => exact (handleSolved_ok _ H)
      | |- _ => exact H
      end.
  - by rewrite handleMove_refused.
Qed.

Lemma playerMove_ok axis index n w :
  session_ok w -> session_ok (after (playerMove axis index n w)).
Proof.
  intros Hok. unfold playerMove. unfold bind at 1.
  change (assignGame ?f w) with (Returns tt (after (assignGame f w))).
  cbv beta iota. apply handleMove_ok.
  revert Hok. ok_start w. ok_run Hcl; ok_finish Hcl Ht1 Ht2.
Qed.

Lemma exec_ok op w : session_ok w -> session_ok (after (exec op w)).
Proof.
  destruct op; cbn [exec];
    auto using scramble_ok, reset_ok, done_ok, undo_ok, redo_ok, inspect_ok,
      changeSize_ok, handleMove_ok, playerMove_ok, intervalFired_ok,
      loadFromLocalStorage_ok, optionsWatcher_ok, dbOpened_ok.
  all: ok_start w; ok_run Hcl; ok_finish Hcl Ht1 Ht2.
Qed.

Lemma run_ok ops w : session_ok w -> session_ok (run ops w).
Proof.
  revert w. induction ops as [|op ops IH]; intros w Hok; [done|].
  cbn [run]. by apply IH, exec_ok.
Qed.

Lemma reachable_ok w : reachable w -> session_ok w.
Proof. intros (g & c & d & ops & <-). apply run_ok, boot_ok. Qed.

(** C8: in every state reached from a fresh session by any sequence of
    events (the calls of [scramble], [reset], [handleMove], [undo], [redo],
    [done] and [inspect] among them) the undo cursor lies between 0 and the
    length of the move log. *)
Theorem cursor_within_log (g : Game.t Board Tile) c d (ops : list Op) :
  0 <= undos (this (run ops (boot g c d)))
    <= Z.of_nat (length (moveHistory (this (run ops (boot g c d))))).
Proof. exact (proj1 (run_ok ops _ (boot_ok g c d))). Qed.
End Properties.

Section UndoRedo.

Context {Board Tile : Type} {E : Engine Board Tile}.
Implicit Types (w : @World Board Tile) (s : @State Board Tile).

(** ** Undo and redo *)

Lemma bind_assoc {A B C} (a : Js A) (f : A -> Js B) (g : B -> Js C) w :
  bind (bind a f) g w = bind a (fun x => bind (f x) g) w.
Proof. unfold bind. destruct (a w); reflexivity. Qed.

Lemma bind_ext {A B} (a : Js A) (f g : A -> Js B) w :
  (forall x v, f x v = g x v) -> bind a f w = bind a g w.
Proof. intros H. unfold bind. destruct (a w); [apply H|reflexivity]. Qed.

Lemma times_snoc k (c : Js unit) w :
  times (S k) c w = (times k c;; c) w.
Proof.
  revert w. induction k as [|k IH]; intros w.
  - cbn [times]. unfold bind, ret. destruct (c w) as [[] ?|? ?]; reflexivity.
  - change (times (S (S k)) c) with (c;; times (S k) c).
    change (times (S k) c) with (c;; times k c) at 2.
    rewrite bind_assoc. apply bind_ext. intros _ v. apply IH.
Qed.

Lemma undo_returns w :
  cursor_in_bounds (this w) -> undos (this w) < historyLength (this w) ->
  exists move,
    at_index (moveHistory (this w)) (historyLength (this w) - undos (this w) - 1)
      = Some move
    /\ undo w = Returns tt (stepped (- Move.n move) 1 move w).
Proof.
  intros Hc Hlt. unfold cursor_in_bounds, historyLength in *.
  destruct (at_index_Some (moveHistory (this w))
              (Z.of_nat (length (moveHistory (this w))) - undos (this w) - 1))
    as [move Hm]; [lia|].
  exists move. split; [exact Hm|].
  expose w. sim_in Hm. sim_in Hlt. unfold undo, stepped, animatedMove, handleMove. sim.
  destruct (vundos =? Z.of_nat (length vmoveHistory)) eqn:He; [lia|].
  rewrite Hm. reflexivity.
Qed.

Lemma redo_returns w :
  cursor_in_bounds (this w) -> 0 < undos (this w) ->
  exists move,
    at_index (moveHistory (this w)) (historyLength (this w) - undos (this w))
      = Some move
    /\ redo w = Returns tt (stepped (Move.n move) (-1) move w).
Proof.
  intros Hc Hlt. unfold cursor_in_bounds, historyLength in *.
  destruct (at_index_Some (moveHistory (this w))
              (Z.of_nat (length (moveHistory (this w))) - undos (this w)))
    as [move Hm]; [lia|].
  exists move. split; [exact Hm|].
  expose w. sim_in Hm. sim_in Hlt. unfold redo, stepped, animatedMove, handleMove. sim.
  destruct (vundos =? 0) eqn:He; [lia|].
  rewrite Hm. reflexivity.
Qed.

(** The invalid steps return at once. *)
Lemma undo_at_start w :
  undos (this w) = historyLength (this w) -> undo w = Returns tt w.
Proof.
  intros H. expose w. sim_in H. unfold undo. sim.
  by rewrite (proj2 (Z.eqb_eq _ _) H).
Qed.

Lemma redo_at_end w : undos (this w) = 0 -> redo w = Returns tt w.
Proof. intros H. expose w. sim_in H. subst. reflexivity. Qed.

Section Inverse.

Hypothesis applyMove_inverse :
  forall axis index n (b : Board),
    applyMove axis index n (applyMove axis index (- n) b) = b.

Lemma redo_undo w :
  cursor_in_bounds (this w) -> undos (this w) < historyLength (this w) ->
  exists w', undo w = Returns tt w' /\ redo w' = Returns tt w
    /\ cursor_in_bounds (this w')
    /\ undos (this w') = undos (this w) + 1
    /\ historyLength (this w') = historyLength (this w).
Proof.
  intros Hc Hlt.
  destruct (undo_returns w Hc Hlt) as (move & Hm & Hu).
  eexists. split; [exact Hu|].
  assert (Hc' : cursor_in_bounds (this (stepped (- Move.n move) 1 move w))).
  { expose w. unfold cursor_in_bounds, stepped in *. sim_in Hc. sim_in Hlt. sim. lia. }
  split; [|split; [exact Hc'|split; by expose w]].
  destruct (redo_returns _ Hc') as (move' & Hm' & Hr).
  { expose w. unfold cursor_in_bounds, stepped in *. sim_in Hc. sim. lia. }
  rewrite Hr. f_equal. clear Hr Hu Hc'.
  expose w. unfold stepped in *. sim_in Hm. sim_in Hm'. sim.
  replace (Z.of_nat (length vmoveHistory) - (vundos + 1))
    with (Z.of_nat (length vmoveHistory) - vundos - 1) in Hm' by lia.
  assert (move' = move) as -> by congruence.
  rewrite applyMove_inverse.
  replace (vundos + 1 + -1) with vundos by lia. reflexivity.
Qed.

Lemma undo_redo_times k : forall w,
  cursor_in_bounds (this w) ->
  Z.of_nat k <= historyLength (this w) - undos (this w) ->
  (times k undo;; times k redo) w = Returns tt w.
Proof.
  induction k as [|k IH]; intros w Hc Hk; [reflexivity|].
  destruct (redo_undo w Hc) as (w' & Hu & Hr & Hc' & Hu' & Hl'); [lia|].
  change (times (S k) undo) with (undo;; times k undo).
  rewrite bind_assoc. unfold bind at 1. rewrite Hu.
  assert (Hstep : forall v, (times k undo;; times (S k) redo) v
                  = ((times k undo;; times k redo);; redo) v).
  { intros v. rewrite bind_assoc. apply bind_ext. intros _ v'. apply times_snoc. }
  rewrite Hstep. unfold bind at 1. rewrite IH; [exact Hr|exact Hc'|lia].
Qed.

(** C1: in a reachable state, [k] calls of [undo] followed by [k] calls of
    [redo], with [k] no more than the entries left to undo, all return and
    leave the board, the log, the cursor and every other field as they
    were, provided that the engine's move by [-n] is undone by its move by
    [n]. *)
Theorem undo_then_redo_restores w (k : nat) :
  reachable w ->
  Z.of_nat k <= historyLength (this w) - undos (this w) ->
  (times k undo;; times k redo) w = Returns tt w.
Proof.
  intros Hr Hk. apply undo_redo_times; [|exact Hk].
  exact (proj1 (reachable_ok w Hr)).
Qed.

End Inverse.

End UndoRedo.

Section MoveLog.

Context {Board Tile : Type} {E : Engine Board Tile}.
Implicit Types (w : @World Board Tile) (s : @State Board Tile).

(** ** The move log under [handleMove] *)

Lemma timed_log w :
  moveHistory (this (timed w)) = moveHistory (this w)
  /\ undos (this (timed w)) = undos (this w)
  /\ clock (timed w) = clock w.
Proof. unfold timed. case_match; done. Qed.

Lemma truncated_clock w :
  startTime (this (truncated w)) = startTime (this w)
  /\ reads (truncated w) = reads w
  /\ clock (truncated w) = clock w.
Proof. unfold truncated. by case_match. Qed.

Lemma truncated_log w :
  cursor_in_bounds (this w) ->
  moveHistory (this (truncated w))
  = take (Z.to_nat (historyLength (this w) - undos (this w))) (moveHistory (this w))
  /\ undos (this (truncated w)) = 0.
Proof.
  unfold cursor_in_bounds, truncated, historyLength. intros Hc.
  destruct (0 <? undos (this w)) eqn:Hu; cbn.
  - rewrite splice_tail by lia. done.
  - replace (undos (this w)) with 0 by lia.
    rewrite Z.sub_0_r, Nat2Z.id, take_ge by lia. done.
Qed.

Lemma recorded_entries move w :
  moveHistory (this (recorded move w))
  = moveHistory (this (truncated (timed w))) ++ newEntries move w
  /\ undos (this (recorded move w)) = undos (this (truncated (timed w))).
Proof.
  unfold recorded, logged, newEntries. cbn.
  destruct (truncated_clock (timed w)) as (-> & -> & ->).
  by destruct (timed_log w) as (_ & _ & ->).
Qed.

Lemma recorded_log move w :
  cursor_in_bounds (this w) ->
  moveHistory (this (recorded move w))
  = take (Z.to_nat (historyLength (this w) - undos (this w))) (moveHistory (this w))
      ++ newEntries move w
  /\ undos (this (recorded move w)) = 0.
Proof.
  intros Hc. destruct (timed_log w) as (Hl & Hu & Hk).
  assert (Hc' : cursor_in_bounds (this (timed w))).
  { unfold cursor_in_bounds, historyLength in *. by rewrite Hl, Hu. }
  destruct (truncated_log _ Hc') as (Ht & Hz).
  destruct (recorded_entries move w) as (-> & ->).
  rewrite Ht, Hz. unfold historyLength. by rewrite Hl, Hu.
Qed.

Lemma handleMove_returns move isPlayerMove w :
  handleMove move isPlayerMove w
  = Returns tt (after (handleMove move isPlayerMove w)).
Proof.
  destruct isPlayerMove; [|done].
  destruct (accepted (this w)) eqn:Hacc.
  - rewrite handleMove_accepted by done.
    repeat case_match; try reflexivity. apply handleSolved_returns.
  - by rewrite handleMove_refused.
Qed.

(** Past the log work, [handleMove] leaves the log and the cursor alone. *)
Lemma handleMove_log move w :
  accepted (this w) = true ->
  moveHistory (this (after (handleMove move true w)))
  = moveHistory (this (recorded move w))
  /\ undos (this (after (handleMove move true w))) = undos (this (recorded move w)).
Proof.
  intros Hacc. rewrite handleMove_accepted by done.
  destruct (handleSolved_effect (recorded move w)) as (_ & _ & _ & _ & _ & Hl & Hu & _).
  repeat case_match; cbn [after]; try done.
Qed.

(** C2: when a player's move gets past the guards of [handleMove] while the
    cursor is [k], the last [k] entries of the log are dropped, the cursor
    becomes 0 and the unit entries of the move follow what is kept; with
    the cursor at 0 nothing is dropped. *)
Theorem handleMove_abandons_redo_branch move w :
  reachable w -> accepted (this w) = true ->
  exists w' kept dropped,
    handleMove move true w = Returns tt w'
    /\ moveHistory (this w) = kept ++ dropped
    /\ Z.of_nat (length dropped) = undos (this w)
    /\ undos (this w') = 0
    /\ moveHistory (this w') = kept ++ newEntries move w
    /\ length (newEntries move w) = Z.abs_nat (Move.n move)
    /\ (if undos (this w) =? 0
        then moveHistory (this w') = moveHistory (this w) ++ newEntries move w
        else True).
Proof.
  intros Hr Hacc. destruct (reachable_ok w Hr) as [Hc _].
  destruct (handleMove_log move w Hacc) as (Hl & Hu).
  destruct (recorded_log move w Hc) as (Hl' & Hu').
  set (keep := Z.to_nat (historyLength (this w) - undos (this w))) in *.
  exists (after (handleMove move true w)), (take keep (moveHistory (this w))),
    (drop keep (moveHistory (this w))).
  unfold cursor_in_bounds, historyLength in *.
  split; [apply handleMove_returns|].
  split; [by rewrite take_drop|].
  split; [rewrite length_drop; lia|].
  split; [congruence|].
  split; [congruence|].
  split; [apply unitEntries_length|].
  destruct (undos (this w) =? 0) eqn:Hz; [|done].
  rewrite Hl, Hl'. f_equal. apply take_ge. lia.
Qed.

(** C4, amended: a player's move delivered to [handleMove] is appended to
    the log exactly when a scramble is waiting or the timer runs; in any
    other phase the call returns with the session as it was. *)
Theorem handleMove_appends_when_timing move w :
  if accepted (this w) then
    exists w',
      handleMove move true w = Returns tt w'
      /\ moveHistory (this w')
         = moveHistory (this (truncated (timed w))) ++ newEntries move w
      /\ length (newEntries move w) = Z.abs_nat (Move.n move)
  else handleMove move true w = Returns tt w.
Proof.
  destruct (accepted (this w)) eqn:Hacc; [|by apply handleMove_refused].
  exists (after (handleMove move true w)).
  split; [apply handleMove_returns|].
  split; [|apply unitEntries_length].
  destruct (handleMove_log move w Hacc) as (-> & _).
  apply recorded_entries.
Qed.

(** C7, amended: an accepted player's move with |n| > 1 adds exactly |n|
    consecutive entries to the log, each with the axis and index of the
    move and with [n] its sign; entry [i] is stamped with the clock reading
    taken when it is pushed, less the start time, so the stamps agree
    whenever the clock does not advance during the call. *)
Theorem handleMove_unit_entries move w :
  accepted (this w) = true -> 1 < Z.abs (Move.n move) ->
  exists w' entries,
    handleMove move true w = Returns tt w'
    /\ moveHistory (this w')
       = moveHistory (this (truncated (timed w))) ++ entries
    /\ Z.of_nat (length entries) = Z.abs (Move.n move)
    /\ (forall i, (i < length entries)%nat ->
          entries !! i
          = Some (Move.mk (Move.axis move) (Move.index move)
                    (Z.sgn (Move.n move))
                    (clock w (reads (timed w) + i)%nat
                       - startTime (this (timed w)))))
    /\ (forall t,
          (forall i, (i < length entries)%nat ->
             clock w (reads (timed w) + i)%nat = t) ->
          forall e, e ∈ entries ->
            Move.time e = t - startTime (this (timed w))).
Proof.
  intros Hacc Hn.
  exists (after (handleMove move true w)), (newEntries move w).
  split; [apply handleMove_returns|].
  split.
  { destruct (handleMove_log move w Hacc) as (-> & _). apply recorded_entries. }
  assert (Hlen : length (newEntries move w) = Z.abs_nat (Move.n move))
    by apply unitEntries_length.
  split; [rewrite Hlen; lia|].
  split.
  - intros i Hi. apply unitEntries_lookup. by rewrite <- Hlen.
  - intros t Ht e He. apply list_elem_of_lookup in He as [i Hi].
    assert (Hi' : (i < length (newEntries move w))%nat)
      by (eapply lookup_lt_Some; eauto).
    unfold newEntries in Hi. rewrite unitEntries_lookup in Hi by (by rewrite <- Hlen).
    injection Hi as <-. cbn. by rewrite Ht.
Qed.

(** C3, at a fresh session: [done()] does not return the session as it
    found it.  The timer was never started, yet the call stamps the time,
    sets [dnf] and records a solve whose scramble is missing. *)
Theorem done_while_idle_records_a_solve (g : Game.t Board Tile) c d :
  started (this (boot g c d)) = false
  /\ exists w',
       done (boot g c d) = Returns tt w'
       /\ allSolves (this w')
          = [Solve.mk (c 0%nat) [] None 0 None
               (if isSolved (Game.board g) then None else Some true)]
       /\ time (this w') = c 0%nat
       /\ dnf (this w') = negb (isSolved (Game.board g))
       /\ reads w' = 1%nat.
Proof.
  split; [reflexivity|]. exists (after (done (boot g c d))).
  destruct g as [b bl nr at']. unfold done, handleSolved, pushSolve, boot, newState.
  sim. rewrite Z.sub_0_r. destruct (isSolved b); repeat split; reflexivity.
Qed.

End MoveLog.


Section Runs.

Context {Board Tile : Type} {E : Engine Board Tile}.
Implicit Types (w : @World Board Tile) (s : @State Board Tile).

Lemma quiet_refl w : quiet w w.
Proof. unfold quiet. repeat split. Qed.


Lemma undo_shape w :
  undo w = Returns tt w \/ undo w = Throws TypeError w
  \/ exists move, undo w = Returns tt (stepped (- Move.n move) 1 move w).
Proof.
  expose w. unfold undo, animatedMove, handleMove, stepped. sim.
  destruct (vundos =? Z.of_nat (length vmoveHistory)); [by left|].
  destruct (at_index _ _) as [move|]; [|by right; left].
  right; right. by exists move.
Qed.

Lemma redo_shape w :
  redo w = Returns tt w \/ redo w = Throws TypeError w
  \/ exists move, redo w = Returns tt (stepped (Move.n move) (-1) move w).
Proof.
  expose w. unfold redo, animatedMove, handleMove, stepped. sim.
  destruct (vundos =? 0); [by left|].
  destruct (at_index _ _) as [move|]; [|by right; left].
  right; right. by exists move.
Qed.

Lemma stepped_quiet n d move w :
  quiet w (stepped n d move w) /\ time (this (stepped n d move w)) = time (this w).
Proof. expose w. unfold quiet, stepped. sim. repeat split. Qed.

Lemma undo_quiet w :
  quiet w (after (undo w)) /\ time (this (after (undo w))) = time (this w).
Proof.
  destruct (undo_shape w) as [->|[->|(move & ->)]]; cbn [after];
    auto using quiet_refl, stepped_quiet.
Qed.

Lemma redo_quiet w :
  quiet w (after (redo w)) /\ time (this (after (redo w))) = time (this w).
Proof.
  destruct (redo_shape w) as [->|[->|(move & ->)]]; cbn [after];
    auto using quiet_refl, stepped_quiet.
Qed.

Lemma intervalFired_quiet h w : quiet w (after (intervalFired h w)).
Proof.
  expose w. unfold intervalFired, quiet. sim.
  destruct (bool_decide (h ∈ vtimers)); sim; repeat split.
Qed.

Lemma intervalFired_unscheduled h w :
  timers w = [] -> intervalFired h w = Returns tt w.
Proof.
  intros H. expose w. sim_in H. subst. unfold intervalFired. sim.
  rewrite bool_decide_false; [done|]. apply not_elem_of_nil.
Qed.

Lemma passive_quiet op w : passive op = true -> quiet w (after (exec op w)).
Proof.
  destruct op; try discriminate; cbn [exec]; intros Hp.
  - apply undo_quiet.
  - apply redo_quiet.
  - destruct isPlayerMove; [discriminate|]. apply quiet_refl.
  - apply intervalFired_quiet.
Qed.



(** ** What a scramble sets up *)

Lemma scramble_effect seed w :
  let w' := after (scramble seed w) in
  scramble seed w = Returns tt w'
  /\ event (this w') = event (this w)
  /\ scrambled (this w') = true
  /\ started (this w') = bool_decide (event (this w) = Blind)
  /\ inSolvingPhase (this w') = false
  /\ memoTime (this w') = 0
  /\ moveHistory (this w') = []
  /\ undos (this w') = 0
  /\ inspecting (this w') = false
  /\ dnf (this w') = false
  /\ allSolves (this w') = allSolves (this w)
  /\ Game.blind (game (this w')) = Game.blind (game (this w))
  /\ clock w' = clock w.
Proof.
  expose w. unfold scramble, reset, start. run_js; repeat split; reflexivity.
Qed.

(** ** A player's event is a call of [handleMove] on some board *)

Lemma player_event op w :
  playerEvent op = true ->
  exists move b,
    exec op w = handleMove move true (with_board b w)
    /\ Z.abs_nat (Move.n move) = unitCount op.
Proof.
  destruct op; try discriminate; cbn [exec playerEvent unitCount]; intros Hp.
  - subst. exists move, (boardOf w). split; [|done]. by expose w.
  - eexists (Move.mk axis index n 0), _. split; [|done]. reflexivity.
Qed.

Lemma with_board_quiet b w :
  quiet w (with_board b w)
  /\ reads (with_board b w) = reads w
  /\ boardOf (with_board b w) = b
  /\ time (this (with_board b w)) = time (this w)
  /\ undos (this (with_board b w)) = undos (this w).
Proof. expose w. unfold quiet, with_board. sim. repeat split. Qed.



(** ** Blind solves: the memorisation time *)










Lemma memoStamped_effect w :
  memoTime (this (memoStamped w)) = clock w (reads w) - startTime (this w)
  /\ Game.blind (game (this (memoStamped w))) = true
  /\ inSolvingPhase (this (memoStamped w)) = true
  /\ event (this (memoStamped w)) = event (this w)
  /\ started (this (memoStamped w)) = started (this w)
  /\ allSolves (this (memoStamped w)) = allSolves (this w)
  /\ scrambled (this (memoStamped w)) = scrambled (this w).
Proof. expose w. unfold memoStamped. sim. repeat split. Qed.





End Runs.

Section Finalisation.

Context {Board Tile : Type} {E : Engine Board Tile}.
Implicit Types (w : @World Board Tile) (s : @State Board Tile)
  (op : @Op Board) (ops : list (@Op Board)).

(** ** When a solve is finalised *)

Lemma memoStamped_board w : boardOf (memoStamped w) = boardOf w.
Proof. by expose w. Qed.

Lemma handleMove_board move isPlayerMove w :
  boardOf (after (handleMove move isPlayerMove w)) = boardOf w.
Proof.
  destruct isPlayerMove; [|done].
  destruct (accepted (this w)) eqn:Hacc; [|by rewrite handleMove_refused].
  rewrite handleMove_accepted by done.
  destruct (recorded_frame move w) as (_ & _ & Hg & _).
  destruct (handleSolved_effect (recorded move w))
    as (_ & _ & _ & _ & _ & _ & _ & _ & _ & Hg' & _).
  assert (Hb : boardOf (recorded move w) = boardOf w)
    by (unfold boardOf; by rewrite Hg).
  repeat case_match; cbn [after]; rewrite ?memoStamped_board; try exact Hb.
  unfold boardOf. by rewrite Hg', Hg.
Qed.

(** In a mode other than blind an accepted move finalises or not according
    to the board it finds. *)
Lemma handleMove_awaiting move w :
  awaiting w ->
  let w' := after (handleMove move true w) in
  if isSolved (boardOf w) then
    finalised w' /\ allSolves (this w') = allSolves (this w) ++ [solveOf (recorded move w)]
  else awaiting w' /\ allSolves (this w') = allSolves (this w).
Proof.
  intros [He Hsc]. cbv zeta.
  assert (Hacc : accepted (this w) = true) by (unfold accepted; by rewrite Hsc).
  rewrite handleMove_accepted by done. rewrite bool_decide_false by done.
  destruct (recorded_frame move w) as (Hre & _ & _ & _ & Hra & Hrs & _).
  destruct (handleSolved_effect (recorded move w))
    as (Hs1 & Hs2 & _ & Hs4 & _).
  destruct (isSolved (boardOf w)); cbn [after].
  - unfold finalised. by rewrite Hs1, Hs2, Hs4, Hra.
  - unfold awaiting. by rewrite Hre, Hrs, Hra.
Qed.

Lemma handleMove_finalised move isPlayerMove w :
  finalised w -> handleMove move isPlayerMove w = Returns tt w.
Proof.
  intros [Hsc Hst]. destruct isPlayerMove; [|done].
  apply handleMove_refused. unfold accepted. by rewrite Hsc, Hst.
Qed.

Lemma quiet_awaiting w w' : quiet w w' -> awaiting w -> awaiting w'.
Proof. unfold quiet, awaiting. intros (_ & -> & _ & -> & _) H. exact H. Qed.

Lemma quiet_finalised w w' : quiet w w' -> finalised w -> finalised w'.
Proof. unfold quiet, finalised. intros (-> & -> & _) H. exact H. Qed.

Lemma playing_cases op :
  playing op = true ->
  passive op = true \/ playerEvent op = true.
Proof. destruct op; try discriminate; intros _; cbn; auto. destruct isPlayerMove; auto. Qed.

Lemma player_event_board op w :
  playerEvent op = true ->
  exists move b,
    exec op w = handleMove move true (with_board b w)
    /\ boardOf (after (exec op w)) = b.
Proof.
  intros Hp. destruct (player_event op w Hp) as (move & b & Hx & _).
  exists move, b. split; [exact Hx|].
  rewrite Hx, handleMove_board. apply with_board_quiet.
Qed.

Lemma playing_awaiting op w :
  playing op = true -> awaiting w ->
  let w' := after (exec op w) in
  if playerEvent op && isSolved (boardOf w') then
    finalised w' /\ length (allSolves (this w')) = S (length (allSolves (this w)))
  else awaiting w' /\ allSolves (this w') = allSolves (this w).
Proof.
  intros Hop Hw. cbv zeta. destruct (playerEvent op) eqn:Hpl; cbn [andb].
  - destruct (player_event_board op w Hpl) as (move & b & Hx & Hb).
    rewrite Hb. rewrite Hx.
    destruct (with_board_quiet b w) as (Hq & _ & Hbb & _).
    pose proof (handleMove_awaiting move (with_board b w)
                  (quiet_awaiting _ _ Hq Hw)) as H.
    cbv zeta in H. rewrite Hbb in H.
    destruct Hq as (_ & _ & _ & _ & _ & _ & Ha & _). rewrite Ha in H.
    destruct (isSolved b); [|exact H].
    destruct H as [H1 H2]. split; [exact H1|].
    rewrite H2, length_app. cbn. lia.
  - destruct (playing_cases op Hop) as [Hpas|?]; [|congruence].
    pose proof (passive_quiet op w Hpas) as Hq.
    split; [by eapply quiet_awaiting|]. by destruct Hq as (_ & _ & _ & _ & _ & _ & -> & _).
Qed.

Lemma playing_finalised op w :
  playing op = true -> finalised w ->
  finalised (after (exec op w))
  /\ allSolves (this (after (exec op w))) = allSolves (this w).
Proof.
  intros Hop Hw. destruct (playing_cases op Hop) as [Hpas|Hpl].
  - pose proof (passive_quiet op w Hpas) as Hq.
    split; [by eapply quiet_finalised|]. by destruct Hq as (_ & _ & _ & _ & _ & _ & -> & _).
  - destruct (player_event op w Hpl) as (move & b & Hx & _). rewrite Hx.
    destruct (with_board_quiet b w) as (Hq & _).
    rewrite handleMove_finalised by (by eapply quiet_finalised). cbn [after].
    split; [by eapply quiet_finalised|]. by destruct Hq as (_ & _ & _ & _ & _ & _ & -> & _).
Qed.

Lemma run_finalised ops w :
  forallb playing ops = true -> finalised w ->
  allSolves (this (run ops w)) = allSolves (this w).
Proof.
  revert w. induction ops as [|op ops IH]; intros w H Hw; [done|].
  cbn in H. apply andb_prop in H as [H1 H2]. cbn [run].
  destruct (playing_finalised op w H1 Hw) as [Hf Ha].
  rewrite IH by done. exact Ha.
Qed.

Lemma run_awaiting ops w :
  forallb playing ops = true -> awaiting w ->
  length (allSolves (this (run ops w)))
  = (length (allSolves (this w)) + (if solvedAlong ops w then 1 else 0))%nat.
Proof.
  revert w. induction ops as [|op ops IH]; intros w H Hw; [cbn; lia|].
  cbn in H. apply andb_prop in H as [H1 H2]. cbn [run solvedAlong].
  pose proof (playing_awaiting op w H1 Hw) as Hstep. cbv zeta in Hstep.
  destruct (playerEvent op && isSolved (boardOf (after (exec op w)))); cbn [orb].
  - destruct Hstep as [Hf Hl]. rewrite run_finalised by done. lia.
  - destruct Hstep as [Ha Hl]. rewrite IH by done. by rewrite Hl.
Qed.

Lemma run_awaiting_none ops w :
  forallb playing ops = true -> awaiting w -> solvedAlong ops w = false ->
  awaiting (run ops w) /\ allSolves (this (run ops w)) = allSolves (this w).
Proof.
  revert w. induction ops as [|p ops IH]; intros w Hops Hw Hnone; [done|].
  cbn in Hops. apply andb_prop in Hops as [H1 H2].
  cbn [solvedAlong] in Hnone. apply orb_false_elim in Hnone as [Hn1 Hn2].
  cbn [run]. pose proof (playing_awaiting p w H1 Hw) as Hstep.
  cbv zeta in Hstep. rewrite Hn1 in Hstep. destruct Hstep as [Ha Hs].
  destruct (IH _ H2 Ha Hn2) as [IH1 IH2]. split; [exact IH1|congruence].
Qed.

(** In blind mode no move finalises, whatever the board. *)
Lemma playing_blind op w :
  playing op = true -> event (this w) = Blind ->
  event (this (after (exec op w))) = Blind
  /\ allSolves (this (after (exec op w))) = allSolves (this w).
Proof.
  intros Hop He. destruct (playing_cases op Hop) as [Hpas|Hpl].
  - destruct (passive_quiet op w Hpas) as (_ & _ & _ & -> & _ & _ & -> & _). done.
  - destruct (player_event op w Hpl) as (move & b & Hx & _). rewrite Hx.
    destruct (with_board_quiet b w) as ((_ & _ & _ & He' & _ & _ & Ha' & _) & _).
    rewrite <- He' in He. rewrite <- Ha'.
    generalize dependent (with_board b w). clear. intros v He.
    destruct (accepted (this v)) eqn:Hacc; [|by rewrite handleMove_refused].
    rewrite handleMove_accepted by done. rewrite bool_decide_true by done.
    destruct (recorded_frame move v) as (Hre & _ & _ & _ & Hra & _).
    destruct (memoStamped_effect (recorded move v)) as (_ & _ & _ & Hme & _ & Hma & _).
    destruct (inSolvingPhase (this v)); cbn [after];
      rewrite ?Hme, ?Hma, Hre, Hra; done.
Qed.

Lemma run_blind ops w :
  forallb playing ops = true -> event (this w) = Blind ->
  allSolves (this (run ops w)) = allSolves (this w).
Proof.
  revert w. induction ops as [|op ops IH]; intros w H Hw; [done|].
  cbn in H. apply andb_prop in H as [H1 H2]. cbn [run].
  destruct (playing_blind op w H1 Hw) as [He Ha].
  rewrite IH by done. exact Ha.
Qed.

(** What [handleMove] does in blind mode is the same for every engine. *)
Lemma handleMove_blind_any_engine (E1 E2 : Engine Board Tile) move isPlayerMove w :
  event (this w) = Blind ->
  @handleMove Board Tile E1 move isPlayerMove w
  = @handleMove Board Tile E2 move isPlayerMove w.
Proof.
  intros He. destruct isPlayerMove; [|done].
  destruct (accepted (this w)) eqn:Hacc.
  - rewrite (@handleMove_accepted Board Tile E1) by done.
    rewrite (@handleMove_accepted Board Tile E2) by done.
    by rewrite bool_decide_true by done.
  - rewrite (@handleMove_refused Board Tile E1) by done.
    by rewrite (@handleMove_refused Board Tile E2).
Qed.

Lemma done_effect w :
  let w' := after (done w) in
  done w = Returns tt w'
  /\ dnf (this w') = negb (isSolved (boardOf w))
  /\ length (allSolves (this w')) = S (length (allSolves (this w)))
  /\ started (this w') = false /\ scrambled (this w') = false
  /\ inSolvingPhase (this w') = false
  /\ Game.blind (game (this w')) = false.
Proof.
  expose w. unfold done, handleSolved, pushSolve. run_js;
    rewrite ?length_app; cbn [length]; repeat split; try reflexivity; lia.
Qed.

(** C6: in a mode other than blind, the events of a solve that follows
    [scramble()] finalise it once if some player's move leaves the board
    solved and never otherwise, and it is the first such move that adds the
    record; in blind mode no move finalises, and in every state of the
    session [handleMove] computes the same with any engine, so with any
    solved predicate; [done()] always returns, finalises and sets [dnf] to
    the negation of the solved predicate. *)
Theorem finalisation_rules w0 seed ops pre op :
  forallb playing ops = true ->
  let w1 := after (scramble seed w0) in
  (if bool_decide (event (this w0) = Blind) then
     allSolves (this (run ops w1)) = allSolves (this w1)
   else
     length (allSolves (this (run ops w1)))
     = (length (allSolves (this w1)) + (if solvedAlong ops w1 then 1 else 0))%nat
     /\ (forallb playing pre = true -> playerEvent op = true ->
         solvedAlong pre w1 = false ->
         isSolved (boardOf (after (exec op (run pre w1)))) = true ->
         allSolves (this (run pre w1)) = allSolves (this w1)
         /\ length (allSolves (this (after (exec op (run pre w1)))))
            = S (length (allSolves (this w1)))))
  /\ (forall (E' : Engine Board Tile) (w : @World Board Tile) move isPlayerMove,
        event (this w) = Blind ->
        @handleMove Board Tile E' move isPlayerMove w
        = @handleMove Board Tile E move isPlayerMove w)
  /\ (exists w',
        done w0 = Returns tt w'
        /\ dnf (this w') = negb (isSolved (boardOf w0))
        /\ length (allSolves (this w')) = S (length (allSolves (this w0)))
        /\ started (this w') = false /\ scrambled (this w') = false
        /\ Game.blind (game (this w')) = false).
Proof.
  intros Hops. cbv zeta.
  destruct (scramble_effect seed w0) as (_ & He & Hsc & _).
  generalize dependent (after (scramble seed w0)). intros w1 He Hsc.
  split; [|split].
  - case_bool_decide as Hev.
    + apply run_blind; congruence.
    + assert (Hw : awaiting w1) by (unfold awaiting; split; congruence).
      split; [by apply run_awaiting|].
      intros Hpre Hop Hnone Hsolved.
      destruct (run_awaiting_none pre w1 Hpre Hw Hnone) as [Hw' Hsame].
      split; [exact Hsame|].
      assert (Hpl : playing op = true) by (destruct op; done).
      pose proof (playing_awaiting op (run pre w1) Hpl Hw') as Hstep.
      cbv zeta in Hstep. rewrite Hop, Hsolved in Hstep. cbn [andb] in Hstep.
      destruct Hstep as [_ ->]. by rewrite Hsame.
  - intros E' w move isPlayerMove Hb. by apply handleMove_blind_any_engine.
  - destruct (done_effect w0) as (H1 & H2 & H3 & H4 & H5 & _ & H7).
    exists (after (done w0)). repeat split; assumption.
Qed.

End Finalisation.

Section Replay.

Context {Board Tile : Type} {E : Engine Board Tile}.
Implicit Types (w : @World Board Tile) (s : @State Board Tile)
  (op : @Op Board) (ops : list (@Op Board)).

(** ** Inspecting a recorded solve *)

Lemma inspect_effect solve b w :
  Solve.scramble solve = Some b ->
  let w' := after (inspect solve w) in
  inspect solve w = Returns tt w'
  /\ inspecting (this w') = true
  /\ started (this w') = false /\ scrambled (this w') = false
  /\ boardOf w' = clone b
  /\ moveHistory (this w') = Solve.moves solve
  /\ undos (this w') = Z.of_nat (length (Solve.moves solve))
  /\ time (this w') = Solve.time solve
  /\ dnf (this w') = match Solve.dnf solve with Some v => v | None => false end.
Proof.
  intros Hb. expose w. destruct solve as [t ms sc st mt df]. cbn in Hb. subst.
  unfold inspect, reset.
  cbn [Solve.time Solve.moves Solve.scramble Solve.startTime Solve.memoTime
       Solve.dnf].
  run_js; repeat split; reflexivity.
Qed.

Lemma replaying_display solve w :
  replaying solve w ->
  displayTime (this w)
  = match at_index (Solve.moves solve)
            (Z.of_nat (length (Solve.moves solve)) - undos (this w)) with
    | Some move => Move.time move
    | None => Solve.time solve
    end.
Proof.
  intros (Hi & _ & _ & Hm & Ht & _). unfold displayTime, historyLength.
  by rewrite Hi, Hm, Ht.
Qed.

Lemma replaying_step solve op w :
  playing op = true -> replaying solve w -> replaying solve (after (exec op w)).
Proof.
  intros Hop (Hi & Hs & Hsc & Hm & Ht & Hok).
  pose proof (exec_ok op w Hok) as Hok'.
  assert (Hq : forall w', quiet w w' -> time (this w') = time (this w) ->
                 session_ok w' -> replaying solve w').
  { intros w' (Q1 & Q2 & _ & _ & _ & _ & _ & Q8 & Q9 & _) Qt Qok.
    unfold replaying. rewrite Q1, Q2, Q8, Q9, Qt. auto 10. }
  destruct op; try discriminate; cbn [exec] in *.
  - apply Hq; [apply undo_quiet|apply undo_quiet|exact Hok'].
  - apply Hq; [apply redo_quiet|apply redo_quiet|exact Hok'].
  - rewrite handleMove_finalised by (split; assumption). cbn [after].
    unfold replaying. auto 10.
  - destruct (player_event (OpPlayerMove axis index n) w eq_refl)
      as (move & b & Hx & _).
    cbn [exec] in Hx. rewrite Hx in Hok' |- *.
    destruct (with_board_quiet b w) as (Q & _ & _ & Qt & _).
    assert (Hf : finalised (with_board b w)).
    { destruct Q as (Q1 & Q2 & _). split; congruence. }
    rewrite handleMove_finalised in Hok' |- * by exact Hf. cbn [after] in *.
    apply Hq; [exact Q|exact Qt|exact Hok'].
  - rewrite intervalFired_unscheduled; [cbn [after]; unfold replaying; auto 10|].
    destruct Hok as [_ [_ H]]. by apply H.
Qed.

Lemma replaying_run solve ops w :
  forallb playing ops = true -> replaying solve w -> replaying solve (run ops w).
Proof.
  revert w. induction ops as [|op ops IH]; intros w H Hw; [done|].
  cbn in H. apply andb_prop in H as [H1 H2]. cbn [run].
  by apply IH, replaying_step.
Qed.

(** C9: [inspect(solve)] returns with the session inspecting, the board a
    clone of the solve's scramble, the log the solve's moves and the cursor
    at their number; through the moves, undos, redos and timer firings that
    follow, the displayed time is the stamp of the entry at index
    [length - cursor] while the cursor is positive, and the solve's total
    time once it is 0. *)
Theorem inspect_then_replay w0 solve b ops :
  reachable w0 -> Solve.scramble solve = Some b ->
  forallb playing ops = true ->
  exists w1,
    inspect solve w0 = Returns tt w1
    /\ inspecting (this w1) = true
    /\ boardOf w1 = clone b
    /\ moveHistory (this w1) = Solve.moves solve
    /\ undos (this w1) = Z.of_nat (length (Solve.moves solve))
    /\ let w2 := run ops w1 in
       inspecting (this w2) = true
       /\ moveHistory (this w2) = Solve.moves solve
       /\ 0 <= undos (this w2) <= Z.of_nat (length (Solve.moves solve))
       /\ if 0 <? undos (this w2) then
            exists move,
              at_index (Solve.moves solve)
                (Z.of_nat (length (Solve.moves solve)) - undos (this w2))
              = Some move
              /\ displayTime (this w2) = Move.time move
          else displayTime (this w2) = Solve.time solve.
Proof.
  intros Hr Hb Hops.
  destruct (inspect_effect solve b w0 Hb)
    as (Hx & Hi & Hs & Hsc & Hbd & Hm & Hu & Ht & _).
  pose proof (inspect_ok solve w0 (reachable_ok w0 Hr)) as Hok.
  generalize dependent (after (inspect solve w0)). intros w1 Hx Hi Hs Hsc Hbd Hm Hu Ht Hok.
  exists w1. do 5 (split; [assumption|]). cbv zeta.
  assert (Hrep : replaying solve (run ops w1)).
  { apply replaying_run; [exact Hops|]. unfold replaying. auto 10. }
  pose proof (replaying_display solve _ Hrep) as Hd.
  destruct Hrep as (Hi2 & _ & _ & Hm2 & Ht2 & [Hc _]).
  unfold cursor_in_bounds, historyLength in Hc. rewrite Hm2 in Hc.
  split; [exact Hi2|]. split; [exact Hm2|]. split; [exact Hc|].
  destruct (0 <? undos (this (run ops w1))) eqn:Hpos.
  - destruct (at_index_Some (Solve.moves solve)
                (Z.of_nat (length (Solve.moves solve)) - undos (this (run ops w1))))
      as [move Hmv]; [lia|].
    exists move. split; [exact Hmv|]. by rewrite Hd, Hmv.
  - replace (undos (this (run ops w1))) with 0 in Hd by lia.
    by rewrite Z.sub_0_r, at_index_length in Hd.
Qed.

(** ** Stored preferences *)

(** C10: loading into a fresh session the record that [serialize] builds
    from a session gives back that session's [cols], [rows], [event] and
    its five option flags; a flag that [serialize] leaves out has, in the
    fresh session, the value it had in the serialised one. *)
Theorem load_of_serialize s (g : Game.t Board Tile) c d :
  exists w',
    loadFromLocalStorage (Some (serialize s)) (boot g c d) = Returns tt w'
    /\ cols (this w') = cols s /\ rows (this w') = rows s
    /\ event (this w') = event s
    /\ noRegrips (this w') = noRegrips s
    /\ darkMode (this w') = darkMode s
    /\ forceMobile (this w') = forceMobile s
    /\ useLetters (this w') = useLetters s
    /\ darkText (this w') = darkText s
    /\ match StoredState.noRegrips (serialize s) with
       | Some v => v = noRegrips s
       | None => noRegrips (newState g) = noRegrips s
       end
    /\ match StoredState.darkMode (serialize s) with
       | Some v => v = darkMode s
       | None => darkMode (newState g) = darkMode s
       end
    /\ match StoredState.forceMobile (serialize s) with
       | Some v => v = forceMobile s
       | None => forceMobile (newState g) = forceMobile s
       end
    /\ match StoredState.useLetters (serialize s) with
       | Some v => v = useLetters s
       | None => useLetters (newState g) = useLetters s
       end
    /\ match StoredState.darkText (serialize s) with
       | Some v => v = darkText s
       | None => darkText (newState g) = darkText s
       end.
Proof.
  exists (after (loadFromLocalStorage (Some (serialize s)) (boot g c d))).
  destruct s as [vcols vrows vcustom vevent vnoRegrips vdarkMode vforceMobile
                 vuseLetters vdarkText vstarted vscrambled vinSolvingPhase vdnf
                 vtime vstartTime vmemoTime vinterval vscrambledBoard
                 vmoveHistory vundos vinspecting vsolves vallSolves
                 vsessionSolves vdb vsessionId vgame].
  unfold loadFromLocalStorage, serialize, boot, newState.
  cbn [StoredState.version StoredState.cols StoredState.rows StoredState.event
       StoredState.noRegrips StoredState.darkMode StoredState.forceMobile
       StoredState.useLetters StoredState.darkText Z.eqb negb].
  sim.
  destruct vnoRegrips, vdarkMode, vforceMobile, vuseLetters, vdarkText; sim;
    repeat split; reflexivity.
Qed.

End Replay.

(** * The properties on concrete sessions *)

Lemma counterEngine_inverse axis index n (b : Z * Z) :
  @applyMove _ _ counterEngine axis index n
    (@applyMove _ _ counterEngine axis index (- n) b) = b.
Proof. destruct axis, b as [x y]; cbn; f_equal; lia. Qed.

Lemma solveUnderWay_reachable : reachable (E:=counterEngine) solveUnderWay.
Proof.
  exists counterGame, tickingClock, emptyDb,
    [OpScramble 3; OpPlayerMove Row 0 2; OpPlayerMove Col 1 (-1); OpUndo].
  unfold solveUnderWay, counterBoot. exact eq_refl.
Qed.

Lemma undo_then_redo_restores_witness :
  (times 2 (undo (E:=counterEngine));; times 2 (redo (E:=counterEngine)))
    solveUnderWay
  = Returns tt solveUnderWay.
Proof.
  apply (undo_then_redo_restores (E:=counterEngine)).
  - exact counterEngine_inverse.
  - exact solveUnderWay_reachable.
  - vm_compute. discriminate.
Defined.

Lemma handleMove_abandons_redo_branch_witness :
  exists w' kept dropped,
    handleMove (E:=counterEngine) (Move.mk Row 1 1 0) true solveUnderWay
    = Returns tt w'
    /\ moveHistory (this solveUnderWay) = kept ++ dropped
    /\ Z.of_nat (length dropped) = undos (this solveUnderWay)
    /\ undos (this w') = 0
    /\ moveHistory (this w') = kept ++ newEntries (Move.mk Row 1 1 0) solveUnderWay
    /\ length (newEntries (Move.mk Row 1 1 0) solveUnderWay)
       = Z.abs_nat (Move.n (Move.mk Row 1 1 0))
    /\ (if undos (this solveUnderWay) =? 0
        then moveHistory (this w')
             = moveHistory (this solveUnderWay)
                 ++ newEntries (Move.mk Row 1 1 0) solveUnderWay
        else True).
Proof.
  apply (handleMove_abandons_redo_branch (E:=counterEngine)).
  - exact solveUnderWay_reachable.
  - vm_compute. reflexivity.
Defined.

(** A player's move that reaches [handleMove] before any scramble is not
    logged. *)
Lemma idle_move_is_not_logged :
  handleMove (E:=counterEngine) (Move.mk Row 0 1 0) true
    (counterBoot tickingClock)
  = Returns tt (counterBoot tickingClock)
  /\ moveHistory (this (counterBoot tickingClock)) = [].
Proof. split; reflexivity. Qed.

Lemma handleMove_unit_entries_witness :
  exists w' entries,
    handleMove (E:=counterEngine) (Move.mk Col 2 (-3) 0) true solveUnderWay
    = Returns tt w'
    /\ moveHistory (this w')
       = moveHistory (this (truncated (timed solveUnderWay))) ++ entries
    /\ Z.of_nat (length entries) = Z.abs (Move.n (Move.mk Col 2 (-3) 0))
    /\ (forall i, (i < length entries)%nat ->
          entries !! i
          = Some (Move.mk (Move.axis (Move.mk Col 2 (-3) 0))
                    (Move.index (Move.mk Col 2 (-3) 0))
                    (Z.sgn (Move.n (Move.mk Col 2 (-3) 0)))
                    (clock solveUnderWay (reads (timed solveUnderWay) + i)%nat
                       - startTime (this (timed solveUnderWay)))))
    /\ (forall t,
          (forall i, (i < length entries)%nat ->
             clock solveUnderWay (reads (timed solveUnderWay) + i)%nat = t) ->
          forall e, e ∈ entries ->
            Move.time e = t - startTime (this (timed solveUnderWay))).
Proof.
  apply (handleMove_unit_entries (E:=counterEngine)).
  - vm_compute. reflexivity.
  - vm_compute. reflexivity.
Defined.

(** With a clock that advances between two readings, the two entries of a
    move by 2 carry different stamps. *)
Lemma stamps_differ_when_the_clock_advances :
  accepted (this (after (scramble (E:=counterEngine) 1 (counterBoot tickingClock))))
  = true
  /\ map Move.time
       (moveHistory
          (this
             (after
                (handleMove (E:=counterEngine) (Move.mk Row 0 2 0) true
                   (after (scramble (E:=counterEngine) 1
                             (counterBoot tickingClock)))))))
     = [1; 2].
Proof. split; vm_compute; reflexivity. Qed.


(** In blind mode a scramble that abandons a solve whose first move was
    made finds the board hidden and leaves it so: the first move of the new
    solve stores the memorisation time without changing the visibility. *)
Lemma abandoned_blind_solve_stays_hidden :
  Game.blind
    (game (this (run (E:=counterEngine)
                   [OpScramble 7; OpPlayerMove Row 0 2; OpScramble 8]
                   blindSession))) = true
  /\ memoTime
       (this (run (E:=counterEngine)
                [OpScramble 7; OpPlayerMove Row 0 2; OpScramble 8]
                blindSession)) = 0
  /\ Game.blind
       (game (this (run (E:=counterEngine)
                      [OpScramble 7; OpPlayerMove Row 0 2; OpScramble 8;
                       OpPlayerMove Col 0 1]
                      blindSession))) = true
  /\ 0 < memoTime
           (this (run (E:=counterEngine)
                    [OpScramble 7; OpPlayerMove Row 0 2; OpScramble 8;
                     OpPlayerMove Col 0 1]
                    blindSession)).
Proof. repeat split; vm_compute; reflexivity. Qed.


Lemma finalisation_rules_witness :
  let w0 := counterBoot frozenClock in
  let ops := [OpPlayerMove Row 0 (-1); OpUndo; OpRedo; OpPlayerMove Col 0 1;
              OpPlayerMove Row 0 5] in
  let pre := [OpPlayerMove Row 0 (-1); OpUndo; OpRedo] in
  let op := OpPlayerMove Col 0 1 in
  let w1 := after (scramble (E:=counterEngine) 1 w0) in
  (if bool_decide (event (this w0) = Blind) then
     allSolves (this (run (E:=counterEngine) ops w1)) = allSolves (this w1)
   else
     length (allSolves (this (run (E:=counterEngine) ops w1)))
     = (length (allSolves (this w1))
        + (if solvedAlong (E:=counterEngine) ops w1 then 1 else 0))%nat
     /\ (forallb playing pre = true -> playerEvent op = true ->
         solvedAlong (E:=counterEngine) pre w1 = false ->
         @isSolved _ _ counterEngine
           (boardOf (after (exec (E:=counterEngine) op
                              (run (E:=counterEngine) pre w1)))) = true ->
         allSolves (this (run (E:=counterEngine) pre w1)) = allSolves (this w1)
         /\ length (allSolves (this (after (exec (E:=counterEngine) op
                                             (run (E:=counterEngine) pre w1)))))
            = S (length (allSolves (this w1)))))
  /\ (forall (E' : Engine (Z * Z) Z) (w : @World (Z * Z) Z) move isPlayerMove,
        event (this w) = Blind ->
        @handleMove _ _ E' move isPlayerMove w
        = @handleMove _ _ counterEngine move isPlayerMove w)
  /\ (exists w',
        done (E:=counterEngine) w0 = Returns tt w'
        /\ dnf (this w') = negb (@isSolved _ _ counterEngine (boardOf w0))
        /\ length (allSolves (this w')) = S (length (allSolves (this w0)))
        /\ started (this w') = false /\ scrambled (this w') = false
        /\ Game.blind (game (this w')) = false).
Proof.
  apply (finalisation_rules (E:=counterEngine) (counterBoot frozenClock) 1
           [OpPlayerMove Row 0 (-1); OpUndo; OpRedo; OpPlayerMove Col 0 1;
            OpPlayerMove Row 0 5]
           [OpPlayerMove Row 0 (-1); OpUndo; OpRedo] (OpPlayerMove Col 0 1)).
  reflexivity.
Defined.

Lemma inspect_then_replay_witness :
  let ops := [OpRedo; OpRedo; OpUndo; OpPlayerMove Row 0 1] in
  exists w1,
    inspect (E:=counterEngine) recordedSolve solveUnderWay = Returns tt w1
    /\ inspecting (this w1) = true
    /\ boardOf w1 = @clone _ _ counterEngine (1, 1)
    /\ moveHistory (this w1) = Solve.moves recordedSolve
    /\ undos (this w1) = Z.of_nat (length (Solve.moves recordedSolve))
    /\ let w2 := run (E:=counterEngine) ops w1 in
       inspecting (this w2) = true
       /\ moveHistory (this w2) = Solve.moves recordedSolve
       /\ 0 <= undos (this w2) <= Z.of_nat (length (Solve.moves recordedSolve))
       /\ if 0 <? undos (this w2) then
            exists move,
              at_index (Solve.moves recordedSolve)
                (Z.of_nat (length (Solve.moves recordedSolve)) - undos (this w2))
              = Some move
              /\ displayTime (this w2) = Move.time move
          else displayTime (this w2) = Solve.time recordedSolve.
Proof.
  apply (inspect_then_replay (E:=counterEngine) solveUnderWay recordedSolve (1, 1)
           [OpRedo; OpRedo; OpUndo; OpPlayerMove Row 0 1]).
  - exact solveUnderWay_reachable.
  - reflexivity.
  - reflexivity.
Defined.

(** * Further properties of the class *)

Section Stepping.

Context {Board Tile : Type} {E : Engine Board Tile}.
Implicit Types (w : @World Board Tile) (s : @State Board Tile)
  (op : @Op Board) (ops : list (@Op Board)).

(** ** One step back, one step forward *)

(** In a reachable state [undo()] returns: with entries left to undo it
    applies the inverse of the entry before the cursor and moves the cursor
    up by one, otherwise it changes nothing. *)
Theorem undo_steps_back w :
  reachable w ->
  exists w',
    undo w = Returns tt w'
    /\ if undos (this w) <? historyLength (this w) then
         exists move,
           at_index (moveHistory (this w))
             (historyLength (this w) - undos (this w) - 1) = Some move
           /\ boardOf w'
              = applyMove (Move.axis move) (Move.index move) (- Move.n move)
                  (boardOf w)
           /\ undos (this w') = undos (this w) + 1
           /\ w' = stepped (- Move.n move) 1 move w
       else w' = w.
Proof.
  intros Hr. destruct (reachable_ok w Hr) as [Hc _].
  destruct (undos (this w) <? historyLength (this w)) eqn:Hlt.
  - destruct (undo_returns w Hc) as (move & Hm & Hu); [lia|].
    exists (stepped (- Move.n move) 1 move w). split; [exact Hu|].
    exists move. split; [exact Hm|]. by expose w.
  - exists w. split; [|reflexivity]. apply undo_at_start.
    unfold cursor_in_bounds in Hc. lia.
Qed.

(** In a reachable state [redo()] returns: with undone entries left it
    applies the entry at the cursor and moves the cursor down by one,
    otherwise it changes nothing. *)
Theorem redo_steps_forward w :
  reachable w ->
  exists w',
    redo w = Returns tt w'
    /\ if 0 <? undos (this w) then
         exists move,
           at_index (moveHistory (this w))
             (historyLength (this w) - undos (this w)) = Some move
           /\ boardOf w'
              = applyMove (Move.axis move) (Move.index move) (Move.n move)
                  (boardOf w)
           /\ undos (this w') = undos (this w) - 1
           /\ w' = stepped (Move.n move) (-1) move w
       else w' = w.
Proof.
  intros Hr. destruct (reachable_ok w Hr) as [Hc _].
  destruct (0 <? undos (this w)) eqn:Hlt.
  - destruct (redo_returns w Hc) as (move & Hm & Hu); [lia|].
    exists (stepped (Move.n move) (-1) move w). split; [exact Hu|].
    exists move. split; [exact Hm|]. by expose w.
  - exists w. split; [|reflexivity]. apply redo_at_end.
    unfold cursor_in_bounds in Hc. lia.
Qed.

(** Whatever the state, [undo()] and [redo()] change at most the board and
    the cursor: the log, the timer, the flags of the phase and the recorded
    solves are as before, also when the call throws. *)
Theorem undo_redo_touch_board_and_cursor w :
  (exists b u, after (undo w) = update (set_undos u) (with_board b w))
  /\ (exists b u, after (redo w) = update (set_undos u) (with_board b w)).
Proof.
  assert (Hid : w = update (set_undos (undos (this w))) (with_board (boardOf w) w))
    by (by expose w).
  assert (Hst : forall n d move,
            stepped n d move w
            = update (set_undos (undos (this w) + d))
                (with_board
                   (applyMove (Move.axis move) (Move.index move) n (boardOf w)) w))
    by (intros; by expose w).
  split.
  - destruct (undo_shape w) as [->|[->|(move & ->)]]; cbn [after]; eauto.
  - destruct (redo_shape w) as [->|[->|(move & ->)]]; cbn [after]; eauto.
Qed.

(** ** The move counter *)

(** In a reachable state an accepted player's move raises the number of
    moves made ([moves], the log length less the cursor) by |n|, whatever
    was undone before. *)
Theorem handleMove_counts_moves move w :
  reachable w -> accepted (this w) = true ->
  moves (this (after (handleMove move true w)))
  = moves (this w) + Z.abs (Move.n move).
Proof.
  intros Hr Hacc. destruct (reachable_ok w Hr) as [Hc _].
  destruct (handleMove_log move w Hacc) as (Hl & Hu).
  destruct (recorded_log move w Hc) as (Hl' & Hu').
  unfold moves, historyLength. rewrite Hl, Hu, Hl', Hu'.
  unfold cursor_in_bounds, historyLength in Hc.
  rewrite length_app, length_take. unfold newEntries, historyLength.
  rewrite unitEntries_length. lia.
Qed.

End Stepping.

Section Timer.

Context {Board Tile : Type} {E : Engine Board Tile}.
Implicit Types (w : @World Board Tile) (s : @State Board Tile)
  (op : @Op Board) (ops : list (@Op Board)).

(** ** The sampling timer *)

Ltac one_start w :=
  intros [Hc [Ht1 Ht2]] Hlen; expose w;
  unfold session_ok, cursor_in_bounds, timers_ok in *;
  sim_in Hc; sim_in Ht1; sim_in Ht2; sim_in Hlen;
  pose proof (cleared _ _ Ht1) as Hcl.

Ltac one_run Hcl := sim; rewrite ?Hcl; repeat (cond; sim; rewrite ?Hcl).

Ltac one_finish Ht2 Hlen :=
  sim; try (rewrite Ht2 by reflexivity); cbn [length app];
  first [lia | exact Hlen].

Lemma reset_one b w :
  session_ok w -> (length (timers w) <= 1)%nat ->
  (length (timers (after (reset b w))) <= 1)%nat.
Proof. one_start w. unfold reset. one_run Hcl; one_finish Ht2 Hlen. Qed.

Lemma scramble_one seed w :
  session_ok w -> (length (timers w) <= 1)%nat ->
  (length (timers (after (scramble seed w))) <= 1)%nat.
Proof. one_start w. unfold scramble, reset, start. one_run Hcl; one_finish Ht2 Hlen. Qed.

Lemma handleSolved_one w :
  session_ok w -> (length (timers w) <= 1)%nat ->
  (length (timers (after (handleSolved w))) <= 1)%nat.
Proof. one_start w. unfold handleSolved, pushSolve. one_run Hcl; one_finish Ht2 Hlen. Qed.

Lemma done_one w :
  session_ok w -> (length (timers w) <= 1)%nat ->
  (length (timers (after (done w))) <= 1)%nat.
Proof. one_start w. unfold done, handleSolved, pushSolve. one_run Hcl; one_finish Ht2 Hlen. Qed.

Lemma inspect_one solve w :
  session_ok w -> (length (timers w) <= 1)%nat ->
  (length (timers (after (inspect solve w))) <= 1)%nat.
Proof. one_start w. unfold inspect, reset. one_run Hcl; one_finish Ht2 Hlen. Qed.

Lemma changeSize_one size w :
  session_ok w -> (length (timers w) <= 1)%nat ->
  (length (timers (after (changeSize size w))) <= 1)%nat.
Proof. one_start w. unfold changeSize, reset. one_run Hcl; one_finish Ht2 Hlen. Qed.

Lemma optionsWatcher_one w :
  session_ok w -> (length (timers w) <= 1)%nat ->
  (length (timers (after (optionsWatcher w))) <= 1)%nat.
Proof. one_start w. unfold optionsWatcher, reset. one_run Hcl; one_finish Ht2 Hlen. Qed.

Lemma dbOpened_one w :
  session_ok w -> (length (timers w) <= 1)%nat ->
  (length (timers (after (dbOpened w))) <= 1)%nat.
Proof. one_start w. unfold dbOpened, reset. one_run Hcl; one_finish Ht2 Hlen. Qed.

Lemma recorded_one move w :
  session_ok w -> (length (timers w) <= 1)%nat ->
  (length (timers (recorded move w)) <= 1)%nat.
Proof.
  one_start w. unfold recorded, logged, truncated, timed, start.
  one_run Hcl; one_finish Ht2 Hlen.
Qed.

Lemma memoStamped_timers w : timers (memoStamped w) = timers w.
Proof. by expose w. Qed.

Lemma handleMove_one move isPlayerMove w :
  session_ok w -> (length (timers w) <= 1)%nat ->
  (length (timers (after (handleMove move isPlayerMove w))) <= 1)%nat.
Proof.
  intros Hok Hlen. destruct isPlayerMove; [|done].
  destruct (accepted (this w)) eqn:Hacc; [|by rewrite handleMove_refused].
  rewrite handleMove_accepted by done.
  pose proof (recorded_one move w Hok Hlen) as H1.
  pose proof (recorded_ok move w Hok) as H2.
  repeat case_match; cbn [after]; rewrite ?memoStamped_timers; try exact H1.
  by apply handleSolved_one.
Qed.

Lemma quiet_one w w' :
  quiet w w' -> (length (timers w) <= 1)%nat -> (length (timers w') <= 1)%nat.
Proof. intros (_ & _ & _ & _ & _ & _ & _ & _ & _ & _ & _ & -> & _) H. exact H. Qed.

Lemma exec_one op w :
  session_ok w -> (length (timers w) <= 1)%nat ->
  (length (timers (after (exec op w))) <= 1)%nat.
Proof.
  intros Hok Hlen.
  destruct op; cbn [exec];
    try (by auto using scramble_one, reset_one, done_one, inspect_one,
           changeSize_one, handleMove_one, optionsWatcher_one, dbOpened_one).
  - eapply quiet_one; [apply undo_quiet|exact Hlen].
  - eapply quiet_one; [apply redo_quiet|exact Hlen].
  - destruct (player_event (OpPlayerMove axis index n) w eq_refl)
      as (move & b & Hx & _).
    cbn [exec] in Hx. rewrite Hx.
    destruct (with_board_quiet b w) as (Q & _).
    apply handleMove_one; [|by eapply quiet_one].
    pose proof (exec_ok (OpPlayerMove axis index n) w Hok) as Hok'.
    clear Hx. revert Hok. clear. intros [Hc [Ht1 Ht2]]. expose w.
    unfold session_ok, cursor_in_bounds, timers_ok, with_board in *.
    sim_in Hc. sim_in Ht1. sim_in Ht2. sim. auto.
  - eapply quiet_one; [apply intervalFired_quiet|exact Hlen].
  - destruct (loadFromLocalStorage_frame loopover w) as (_ & _ & _ & _ & ->).
    exact Hlen.
Qed.

Lemma run_one ops w :
  session_ok w -> (length (timers w) <= 1)%nat ->
  session_ok (run ops w) /\ (length (timers (run ops w)) <= 1)%nat.
Proof.
  revert w. induction ops as [|op ops IH]; intros w Hok Hlen; [done|].
  cbn [run]. apply IH; [by apply exec_ok|by apply exec_one].
Qed.

(** The sampler is never scheduled twice: in every state reached from a
    fresh session at most one interval timer is pending, it is the one held
    in [interval], and none is pending while the session is not started. *)
Theorem at_most_one_timer (g : Game.t Board Tile) c d ops :
  let w := run ops (boot g c d) in
  (length (timers w) <= 1)%nat
  /\ Forall (fun h => interval (this w) = Some h) (timers w)
  /\ (if started (this w) then True else timers w = []).
Proof.
  cbv zeta.
  destruct (run_one ops (boot g c d) (boot_ok g c d)) as [[_ [H1 H2]] Hlen];
    [cbn; lia|].
  split; [exact Hlen|]. split.
  - apply Forall_forall. exact H1.
  - destruct (started _); [done|]. by apply H2.
Qed.

(** In a reachable state whose timer is not running, a late firing of an
    interval callback changes nothing; in particular the displayed time of
    a finished or inspected solve is not overwritten. *)
Theorem stopped_session_ignores_ticks h w :
  reachable w -> started (this w) = false ->
  intervalFired h w = Returns tt w.
Proof.
  intros Hr Hs. apply intervalFired_unscheduled.
  destruct (reachable_ok w Hr) as [_ [_ H]]. by apply H.
Qed.

(** The callback of a pending timer samples the clock: the displayed time
    becomes the reading less the start time and nothing else of the
    session changes. *)
Theorem pending_tick_samples_clock h w :
  h ∈ timers w ->
  intervalFired h w
  = Returns tt
      {| this := set_time (clock w (reads w) - startTime (this w)) (this w);
         clock := clock w; reads := S (reads w); timers := timers w;
         nextTimer := nextTimer w; idb := idb w |}.
Proof.
  intros Hh. expose w. sim_in Hh. unfold intervalFired. sim.
  by rewrite bool_decide_true.
Qed.

End Timer.

Section Scramble.

Context {Board Tile : Type} {E : Engine Board Tile}.
Implicit Types (w : @World Board Tile) (s : @State Board Tile)
  (op : @Op Board) (ops : list (@Op Board)).

(** ** Scrambling and the first move *)

Lemma scramble_fields seed w :
  let w' := after (scramble seed w) in
  scramble seed w = Returns tt w'
  /\ boardOf w' = scrambleBoard seed (boardOf w)
  /\ scrambledBoard (this w') = Some (clone (scrambleBoard seed (boardOf w)))
  /\ moveHistory (this w') = [] /\ undos (this w') = 0
  /\ scrambled (this w') = true /\ inSolvingPhase (this w') = false
  /\ dnf (this w') = false /\ inspecting (this w') = false
  /\ time (this w') = 0 /\ memoTime (this w') = 0
  /\ started (this w') = bool_decide (event (this w) = Blind)
  /\ if bool_decide (event (this w) = Blind) then
       startTime (this w') = clock w (reads w) /\ reads w' = S (reads w)
       /\ interval (this w') = Some (nextTimer w)
     else startTime (this w') = startTime (this w) /\ reads w' = reads w.
Proof.
  expose w. unfold scramble, reset, start. run_js; repeat split; reflexivity.
Qed.

(** [scramble()] always returns.  The board is the engine's scramble of the
    board it found and [scrambledBoard] a clone of it; the log is empty,
    the cursor 0, the flags of the previous solve and the times are
    cleared; the timer runs exactly in blind mode, started at the reading
    the call takes, and no reading is taken in the other modes. *)
Theorem scramble_sets_up seed w :
  let w' := after (scramble seed w) in
  scramble seed w = Returns tt w'
  /\ boardOf w' = scrambleBoard seed (boardOf w)
  /\ scrambledBoard (this w') = Some (clone (scrambleBoard seed (boardOf w)))
  /\ moveHistory (this w') = [] /\ undos (this w') = 0
  /\ scrambled (this w') = true /\ inSolvingPhase (this w') = false
  /\ dnf (this w') = false /\ inspecting (this w') = false
  /\ time (this w') = 0 /\ memoTime (this w') = 0
  /\ started (this w') = bool_decide (event (this w) = Blind)
  /\ if bool_decide (event (this w) = Blind) then
       startTime (this w') = clock w (reads w) /\ reads w' = S (reads w)
       /\ interval (this w') = Some (nextTimer w)
     else startTime (this w') = startTime (this w) /\ reads w' = reads w.
Proof. exact (scramble_fields seed w). Qed.

(** Outside blind mode the first player's move after a scramble starts the
    timer: the start time is the reading taken by [start()], the entries of
    the move are stamped from the readings that follow it, and they are
    the whole log. *)
Theorem first_move_starts_timer seed move w0 :
  event (this w0) <> Blind ->
  let w := after (scramble seed w0) in
  let w' := after (handleMove move true w) in
  started (this w) = false
  /\ started (this w') = negb (isSolved (boardOf w))
  /\ startTime (this w') = clock w0 (reads w0)
  /\ moveHistory (this w')
     = unitEntries move (clock w0) (S (reads w0)) (clock w0 (reads w0))
         (Z.abs_nat (Move.n move)).
Proof.
  intros He. cbv zeta.
  destruct (scramble_fields seed w0)
    as (_ & Hb & _ & Hl & Hu & Hsc & _ & _ & _ & _ & _ & Hst & Hrd).
  destruct (scramble_effect seed w0) as (_ & He' & _ & _ & _ & _ & _ & _ & _ & _ & _ & _ & Hk).
  rewrite bool_decide_false in Hst, Hrd by done. destruct Hrd as [_ Hrd].
  generalize dependent (after (scramble seed w0)). intros w Hb Hl Hu Hsc Hst Hrd He' Hk.
  split; [exact Hst|].
  assert (Hacc : accepted (this w) = true) by (unfold accepted; by rewrite Hsc).
  rewrite handleMove_accepted by done.
  rewrite bool_decide_false by congruence.
  assert (Hrec : started (this (recorded move w)) = true
           /\ startTime (this (recorded move w)) = clock w0 (reads w0)
           /\ moveHistory (this (recorded move w))
              = unitEntries move (clock w0) (S (reads w0)) (clock w0 (reads w0))
                  (Z.abs_nat (Move.n move))).
  { clear Hb Hacc He He'. expose w. sim_in Hl. sim_in Hu. sim_in Hsc. sim_in Hst.
    sim_in Hrd. sim_in Hk. subst.
    unfold recorded, logged, truncated, timed, start. sim. done. }
  destruct Hrec as (R1 & R2 & R3).
  destruct (handleSolved_effect (recorded move w))
    as (S1 & _ & _ & _ & _ & S6 & _).
  assert (S3 : startTime (this (after (handleSolved (recorded move w))))
               = startTime (this (recorded move w))).
  { generalize (recorded move w). clear. intros v. expose v.
    unfold handleSolved, pushSolve. run_js; reflexivity. }
  destruct (isSolved (boardOf w)); cbn [after negb].
  - rewrite S1, S3, S6. auto.
  - auto.
Qed.

End Scramble.

Section ReplayBoard.

Context {Board Tile : Type} {E : Engine Board Tile}.
Implicit Types (w : @World Board Tile) (s : @State Board Tile)
  (op : @Op Board) (ops : list (@Op Board)).

(** ** Replaying a solve to its end *)

Lemma at_index_lookup {A} (l : list A) (i : Z) x :
  at_index l i = Some x -> 0 <= i /\ l !! Z.to_nat i = Some x.
Proof.
  unfold at_index. destruct (i <? 0) eqn:Hi; [discriminate|]. intros H.
  split; [lia|exact H].
Qed.

Lemma stepped_fields n d move w :
  undos (this (stepped n d move w)) = undos (this w) + d
  /\ moveHistory (this (stepped n d move w)) = moveHistory (this w)
  /\ boardOf (stepped n d move w)
     = applyMove (Move.axis move) (Move.index move) n (boardOf w).
Proof. by expose w. Qed.

Lemma redo_many k : forall w,
  cursor_in_bounds (this w) -> Z.of_nat k <= undos (this w) ->
  exists w',
    times k redo w = Returns tt w'
    /\ undos (this w') = undos (this w) - Z.of_nat k
    /\ moveHistory (this w') = moveHistory (this w)
    /\ boardOf w'
       = applyMoves
           (take k (drop (Z.to_nat (historyLength (this w) - undos (this w)))
                      (moveHistory (this w))))
           (boardOf w).
Proof.
  induction k as [|k IH]; intros w Hc Hk.
  - exists w. cbn. rewrite Z.sub_0_r. by rewrite take_0.
  - destruct (redo_returns w Hc) as (move & Hm & Hr); [lia|].
    destruct (stepped_fields (Move.n move) (-1) move w) as (Su & Sl & Sb).
    destruct (IH (stepped (Move.n move) (-1) move w)) as (w' & Ht & Hu & Hl & Hb).
    { unfold cursor_in_bounds, historyLength in *. rewrite Su, Sl. lia. }
    { rewrite Su. lia. }
    exists w'. cbn [times]. unfold bind. rewrite Hr.
    split; [exact Ht|]. split; [rewrite Hu, Su; lia|]. split; [congruence|].
    rewrite Hb, Sb. unfold historyLength. rewrite Sl, Su.
    apply at_index_lookup in Hm as [Hpos Hm].
    unfold historyLength in Hm, Hpos.
    rewrite (drop_S _ _ _ Hm). cbn [take applyMoves fold_left].
    unfold applyMoves. do 3 f_equal.
    unfold cursor_in_bounds, historyLength in Hc. lia.
Qed.

(** After [inspect(solve)], as many calls of [redo()] as the solve has
    moves all return and leave the cursor at 0 and the board that the
    engine gets by applying the solve's moves in order to a clone of its
    scramble. *)
Theorem replay_rebuilds_final_board solve b w :
  Solve.scramble solve = Some b ->
  exists w1 w2,
    inspect solve w = Returns tt w1
    /\ times (length (Solve.moves solve)) redo w1 = Returns tt w2
    /\ undos (this w2) = 0
    /\ boardOf w2 = applyMoves (Solve.moves solve) (clone b).
Proof.
  intros Hb.
  destruct (inspect_effect solve b w Hb)
    as (Hx & _ & _ & _ & Hbd & Hm & Hu & _).
  generalize dependent (after (inspect solve w)). intros w1 Hx Hbd Hm Hu.
  destruct (redo_many (length (Solve.moves solve)) w1) as (w2 & Ht & Hu2 & _ & Hb2).
  { unfold cursor_in_bounds, historyLength. rewrite Hm, Hu. lia. }
  { rewrite Hu. lia. }
  exists w1, w2. split; [exact Hx|]. split; [exact Ht|].
  split; [rewrite Hu2, Hu; lia|].
  rewrite Hb2, Hbd. unfold historyLength. rewrite Hm, Hu, Z.sub_diag.
  cbn [Z.to_nat drop]. by rewrite take_ge.
Qed.

End ReplayBoard.

Section Recording.

Context {Board Tile : Type} {E : Engine Board Tile}.
Implicit Types (w : @World Board Tile) (s : @State Board Tile)
  (op : @Op Board) (ops : list (@Op Board)).

(** ** The lists of solves *)

Ltac alias_start w :=
  intros Ha; expose w; unfold alias_ok in *; sim_in Ha.

Ltac alias_finish :=
  sim;
  repeat match goal with
    | H : bool_decide _ = true |- _ => apply bool_decide_eq_true in H
    | H : bool_decide _ = false |- _ => apply bool_decide_eq_false in H
    end;
  first
    [ exact I
    | assumption
    | by rewrite lookup_insert_eq
    | by (rewrite lookup_alter_eq; apply fmap_is_Some)
    | by (apply not_eq_None_Some)
    | idtac ].

Lemma reset_alias b w : alias_ok (this w) -> alias_ok (this (after (reset b w))).
Proof. alias_start w. unfold reset. run_js; alias_finish. Qed.

Lemma handleSolved_alias w :
  alias_ok (this w) -> alias_ok (this (after (handleSolved w))).
Proof. alias_start w. unfold handleSolved, pushSolve. run_js; alias_finish. Qed.

Lemma scramble_alias seed w :
  alias_ok (this w) -> alias_ok (this (after (scramble seed w))).
Proof. alias_start w. unfold scramble, reset, start. run_js; alias_finish. Qed.

Lemma done_alias w : alias_ok (this w) -> alias_ok (this (after (done w))).
Proof. alias_start w. unfold done, handleSolved, pushSolve. run_js; alias_finish. Qed.

Lemma inspect_alias solve w :
  alias_ok (this w) -> alias_ok (this (after (inspect solve w))).
Proof. alias_start w. unfold inspect, reset. run_js; alias_finish. Qed.

Lemma changeSize_alias size w :
  alias_ok (this w) -> alias_ok (this (after (changeSize size w))).
Proof. alias_start w. unfold changeSize, reset. run_js; alias_finish. Qed.

Lemma optionsWatcher_alias w :
  alias_ok (this w) -> alias_ok (this (after (optionsWatcher w))).
Proof. alias_start w. unfold optionsWatcher, reset. run_js; alias_finish. Qed.

Lemma dbOpened_alias w :
  alias_ok (this w) -> alias_ok (this (after (dbOpened w))).
Proof. alias_start w. unfold dbOpened, reset. run_js; alias_finish. Qed.

(** The steps that never name a list of solves. *)
Lemma same_lists_alias w w' :
  solves (this w') = solves (this w) ->
  sessionSolves (this w') = sessionSolves (this w) ->
  alias_ok (this w) -> alias_ok (this w').
Proof. unfold alias_ok. by intros -> ->. Qed.

Lemma recorded_lists move w :
  solves (this (recorded move w)) = solves (this w)
  /\ sessionSolves (this (recorded move w)) = sessionSolves (this w).
Proof.
  expose w. unfold recorded, logged, truncated, timed, start. sim.
  destruct vscrambled, vstarted; sim; destruct (0 <? vundos); by sim.
Qed.

Lemma memoStamped_lists w :
  solves (this (memoStamped w)) = solves (this w)
  /\ sessionSolves (this (memoStamped w)) = sessionSolves (this w).
Proof. by expose w. Qed.

Lemma with_board_lists b w :
  solves (this (with_board b w)) = solves (this w)
  /\ sessionSolves (this (with_board b w)) = sessionSolves (this w).
Proof. by expose w. Qed.

Lemma stepped_lists n d move w :
  solves (this (stepped n d move w)) = solves (this w)
  /\ sessionSolves (this (stepped n d move w)) = sessionSolves (this w).
Proof. by expose w. Qed.

Lemma handleMove_alias move isPlayerMove w :
  alias_ok (this w) -> alias_ok (this (after (handleMove move isPlayerMove w))).
Proof.
  intros Ha. destruct isPlayerMove; [|done].
  destruct (accepted (this w)) eqn:Hacc; [|by rewrite handleMove_refused].
  rewrite handleMove_accepted by done.
  assert (Hr : alias_ok (this (recorded move w))).
  { destruct (recorded_lists move w) as [H1 H2].
    exact (same_lists_alias w _ H1 H2 Ha). }
  destruct (memoStamped_lists (recorded move w)) as [H1 H2].
  repeat case_match; cbn [after];
    lazymatch goal with
    | |- alias_ok (this (memoStamped _)) => exact (same_lists_alias _ _ H1 H2 Hr)
    | |- alias_ok (this (after (handleSolved _))) => exact (handleSolved_alias _ Hr)
    | |- _ => exact Hr
    end.
Qed.

Lemma exec_alias op w : alias_ok (this w) -> alias_ok (this (after (exec op w))).
Proof.
  intros Ha.
  destruct op; cbn [exec];
    try (by auto using scramble_alias, reset_alias, done_alias, inspect_alias,
           changeSize_alias, handleMove_alias, optionsWatcher_alias,
           dbOpened_alias).
  - destruct (undo_shape w) as [->|[->|(move & ->)]]; cbn [after]; done.
  - destruct (redo_shape w) as [->|[->|(move & ->)]]; cbn [after]; done.
  - destruct (player_event (OpPlayerMove axis index n) w eq_refl)
      as (move & b & Hx & _).
    cbn [exec] in Hx. rewrite Hx. apply handleMove_alias.
    destruct (with_board_lists b w) as [H1 H2].
    exact (same_lists_alias w _ H1 H2 Ha).
  - revert Ha. alias_start w. unfold intervalFired. run_js; alias_finish.
  - revert Ha. unfold loadFromLocalStorage.
    destruct loopover as [state|]; [|done].
    destruct (StoredState.version state =? 0); [|done]. cbn [negb].
    destruct (StoredState.noRegrips state), (StoredState.darkMode state),
      (StoredState.forceMobile state), (StoredState.useLetters state),
      (StoredState.darkText state); intros Ha; exact Ha.
Qed.

Lemma run_alias ops w : alias_ok (this w) -> alias_ok (this (run ops w)).
Proof.
  revert w. induction ops as [|op ops IH]; intros w Ha; [done|].
  cbn [run]. by apply IH, exec_alias.
Qed.

Lemma reachable_alias w : reachable w -> alias_ok (this w).
Proof. intros (g & c & d & ops & <-). by apply run_alias. Qed.

(** In a reachable state [handleSolved()] returns and appends one and the
    same record to [allSolves] and to the list that [solves] names; the
    record holds the elapsed time read from the clock at that moment, a
    copy of the log, the scramble snapshot and the start time, the
    memorisation time only when it is positive and [dnf] only when set. *)
Theorem handleSolved_records_solve w :
  reachable w ->
  exists w' solve,
    handleSolved w = Returns tt w'
    /\ allSolves (this w') = allSolves (this w) ++ [solve]
    /\ solvesList (this w') = solvesList (this w) ++ [solve]
    /\ Solve.time solve = clock w (reads w) - startTime (this w)
    /\ time (this w') = Solve.time solve
    /\ Solve.moves solve = moveHistory (this w)
    /\ Solve.scramble solve = scrambledBoard (this w)
    /\ Solve.startTime solve = startTime (this w)
    /\ Solve.memoTime solve
       = (if 0 <? memoTime (this w) then Some (memoTime (this w)) else None)
    /\ Solve.dnf solve = (if dnf (this w) then Some true else None).
Proof.
  intros Hr. pose proof (reachable_alias w Hr) as Ha.
  exists (after (handleSolved w)), (solveOf w).
  split; [apply handleSolved_returns|].
  destruct (handleSolved_effect w) as (_ & _ & _ & H4 & H5 & _).
  split; [exact H4|]. split; [|by rewrite H5].
  clear H4 H5 Hr. revert Ha. alias_start w.
  unfold handleSolved, pushSolve, solvesList, solveOf. sim.
  destruct vsolves as [l|key]; sim.
  - destruct vdb; sim; [destruct (noSessionId vsessionId); sim|]; reflexivity.
  - destruct Ha as [l Hl].
    destruct vdb; sim; [destruct (noSessionId vsessionId); sim|];
      by rewrite lookup_alter_eq, Hl.
Qed.

(** [reset] makes [solves] name the list kept in [sessionSolves] under the
    current event name: the solves finalised earlier in this event are read
    again, an event seen for the first time starts with none, and the lists
    of the other events are untouched. *)
Theorem reset_selects_event_solves b w :
  let w' := after (reset b w) in
  let key := eventName (this w) in
  solves (this w') = EventArray key
  /\ solvesList (this w') = default [] (sessionSolves (this w) !! key)
  /\ eventName (this w') = key
  /\ forall other, other <> key ->
       sessionSolves (this w') !! other = sessionSolves (this w) !! other.
Proof.
  cbv zeta. expose w. unfold reset, solvesList, eventName.
  destruct b, vnoRegrips, vdb; sim;
    match goal with
    | |- context [bool_decide (vsessionSolves !! ?k = None)] =>
        destruct (vsessionSolves !! k) as [l|] eqn:Hk
    end;
    case_bool_decide as Hbd; try (exfalso; congruence);
    sim; rewrite ?Hk, ?lookup_insert_eq;
    repeat (cond; sim; rewrite ?Hk, ?lookup_insert_eq);
    repeat split; try (intros other Ho; by rewrite lookup_insert_ne).
Qed.

End Recording.

Section Storage.

Context {Board Tile : Type} {E : Engine Board Tile}.
Implicit Types (w : @World Board Tile) (s : @State Board Tile)
  (op : @Op Board) (ops : list (@Op Board)).

(** ** The database *)

(** With a database open and a session id at hand, [handleSolved()] puts
    the solve in the store within the call, under the event name and the
    id.  Without an id the call only puts a new row in [sessions], stamped
    with a second clock reading, and returns with the id still missing and
    no solve stored; the rest runs when that put resolves with the key of
    the row: whatever the session has become by then, the key becomes its
    id and the solve is stored under that id and the event name of that
    moment.  Without a database nothing is stored and no id is made up. *)
Theorem handleSolved_stores_solve w :
  let w' := after (handleSolved w) in
  if db (this w) then
    if noSessionId (sessionId (this w)) then
      sessions (idb w') = sessions (idb w) ++ [clock w (S (reads w))]
      /\ solvesStore (idb w') = solvesStore (idb w)
      /\ sessionId (this w') = sessionId (this w)
      /\ (forall key (v : @World Board Tile),
            let v' := after (sessionStored key (solveOf w) v) in
            sessionStored key (solveOf w) v = Returns tt v'
            /\ sessionId (this v') = Some key
            /\ solvesStore (idb v')
               = solvesStore (idb v) ++ [(eventName (this v), Some key, solveOf w)]
            /\ sessions (idb v') = sessions (idb v))
    else
      solvesStore (idb w')
      = solvesStore (idb w) ++ [(eventName (this w), sessionId (this w), solveOf w)]
      /\ sessions (idb w') = sessions (idb w)
      /\ sessionId (this w') = sessionId (this w)
  else idb w' = idb w /\ sessionId (this w') = sessionId (this w).
Proof.
  cbv zeta. destruct (db (this w)) eqn:Hd.
  - destruct (noSessionId (sessionId (this w))) eqn:Hn.
    + split; [|split; [|split]].
      1-3: revert Hd Hn; expose w; sim; intros -> Hn;
        unfold handleSolved, pushSolve; sim; destruct vsolves; sim;
        rewrite Hn; sim; destruct vidb; reflexivity.
      intros key v. clear. generalize (solveOf w). intros solve.
      expose v. unfold sessionStored, eventName. sim.
      destruct vidb. repeat split.
    + revert Hd Hn. expose w. sim. intros -> Hn.
      unfold handleSolved, pushSolve, solveOf, eventName. sim.
      destruct vsolves; sim; rewrite Hn; sim; destruct vidb; repeat split.
  - revert Hd. expose w. sim. intros ->.
    unfold handleSolved, pushSolve. sim.
    destruct vsolves; sim; destruct vidb; repeat split.
Qed.

(** ** Grouping the stored solves *)

Lemma groupByEvent_snoc stored row :
  groupByEvent (stored ++ [row])
  = <[row.1.1 := default [] (groupByEvent stored !! row.1.1) ++ [row.2]]>
      (groupByEvent (Board:=Board) stored).
Proof. unfold groupByEvent. by rewrite fold_left_app. Qed.

Lemma storedUnder_snoc key stored (row : string * option Z * Solve.t Board) :
  storedUnder key (stored ++ [row])
  = storedUnder key stored ++ (if decide (row.1.1 = key) then [row.2] else []).
Proof.
  unfold storedUnder. rewrite filter_app, map_app. f_equal.
  rewrite filter_cons, filter_nil. by destruct (decide (row.1.1 = key)).
Qed.

Lemma groupByEvent_lookup stored key :
  groupByEvent (Board:=Board) stored !! key
  = match storedUnder key stored with
    | [] => None
    | l => Some l
    end.
Proof.
  induction stored as [|row stored IH] using rev_ind; [done|].
  rewrite groupByEvent_snoc, storedUnder_snoc.
  destruct (decide (row.1.1 = key)) as [->|Hne].
  - rewrite lookup_insert_eq, IH.
    destruct (storedUnder _ stored); by cbn.
  - rewrite lookup_insert_ne by done. by rewrite IH, app_nil_r.
Qed.

(** [getSolvesByEvent()] changes nothing.  Without a database it gives the
    empty object; with one, the object holds under every event name that
    occurs in the store the solves stored under it, in the order of the
    store (the list that [reset] reads through the index), and no other
    key. *)
Theorem getSolvesByEvent_groups w key :
  exists byEvent,
    getSolvesByEvent w = Returns byEvent w
    /\ byEvent !! key
       = (if db (this w) then
            match storedUnder key (solvesStore (idb w)) with
            | [] => None
            | l => Some l
            end
          else None)
    /\ getAllFromIndex key w
       = Returns (storedUnder key (solvesStore (idb w))) w.
Proof.
  unfold getSolvesByEvent, getAll, bind, get, ret.
  destruct (db (this w)); cbn [negb].
  - eexists. split; [reflexivity|]. split; [apply groupByEvent_lookup|done].
  - eexists. split; [reflexivity|]. split; [apply lookup_empty|done].
Qed.

(** ** Stored preferences and the option watcher *)

(** An absent entry, or a record whose version is not 0, is discarded as a
    whole: the session is left as it was. *)
Theorem loadFromLocalStorage_discards loopover w :
  match loopover with
  | Some state => StoredState.version state =? 0
  | None => false
  end = false ->
  loadFromLocalStorage loopover w = Returns tt w.
Proof.
  intros H. unfold loadFromLocalStorage. destruct loopover as [state|]; [|done].
  by rewrite H.
Qed.

(** ** The clamp of the dimensions *)

Lemma clampSize_Num (q : QArith_base.Q) :
  clampSize (Num q)
  = Num (QArith_base.inject_Z (Z.min (Z.max (Qround.Qfloor q) 1) 50)).
Proof.
  unfold clampSize, Math.floor, Math.min, Math.max.
  assert (H1 : Qround.Qfloor (QArith_base.inject_Z 1) = 1)
    by apply Qround.Qfloor_Z.
  assert (H50 : Qround.Qfloor (QArith_base.inject_Z 50) = 50)
    by apply Qround.Qfloor_Z.
  assert (Hnot : forall p r, QArith_base.Qle_bool p r = false ->
                   QArith_base.Qle r p).
  { intros p r H. apply QArith_base.Qlt_le_weak, QArith_base.Qnot_le_lt.
    intros Hle. apply QArith_base.Qle_bool_iff in Hle. congruence. }
  destruct (QArith_base.Qle_bool q (QArith_base.inject_Z 1)) eqn:Hq1.
  - apply QArith_base.Qle_bool_iff, Qround.Qfloor_resp_le in Hq1.
    rewrite H1 in Hq1.
    change (QArith_base.Qle_bool (QArith_base.inject_Z 1)
              (QArith_base.inject_Z 50)) with true.
    cbv iota. rewrite H1. do 2 f_equal. lia.
  - apply Hnot, Qround.Qfloor_resp_le in Hq1. rewrite H1 in Hq1.
    destruct (QArith_base.Qle_bool q (QArith_base.inject_Z 50)) eqn:Hq50.
    + apply QArith_base.Qle_bool_iff, Qround.Qfloor_resp_le in Hq50.
      rewrite H50 in Hq50. do 2 f_equal. lia.
    + apply Hnot, Qround.Qfloor_resp_le in Hq50. rewrite H50 in Hq50.
      rewrite H50. do 2 f_equal. lia.
Qed.

Lemma clampDimension_eq (c : Z) : clampDimension c = Z.min (Z.max c 1) 50.
Proof.
  unfold clampDimension. rewrite clampSize_Num, !Qround.Qfloor_Z. reflexivity.
Qed.

(** The clamp [Math.floor(Math.min(Math.max(x, 1), 50))] of the option
    watcher gives [NaN] for [NaN], 1 and 50 for the infinities, and for a
    finite number its integer part brought into 1..50.  On the integers
    that the session holds, the watcher returns with [cols] and [rows]
    clamped, so within 1..50 and as they were when they were there
    already, with the board rebuilt for these dimensions and the session
    reset. *)
Theorem optionsWatcher_clamps w :
  let w' := after (optionsWatcher w) in
  optionsWatcher w = Returns tt w'
  /\ (forall x,
        clampSize x
        = match x with
          | NaN => NaN
          | Infinity negative =>
              Num (QArith_base.inject_Z (if negative then 1 else 50))
          | Num q =>
              Num (QArith_base.inject_Z (Z.min (Z.max (Qround.Qfloor q) 1) 50))
          end)
  /\ clampSize (Num (QArith_base.inject_Z (cols (this w))))
     = Num (QArith_base.inject_Z (cols (this w')))
  /\ clampSize (Num (QArith_base.inject_Z (rows (this w))))
     = Num (QArith_base.inject_Z (rows (this w')))
  /\ 1 <= cols (this w') <= 50 /\ 1 <= rows (this w') <= 50
  /\ (if (1 <=? cols (this w)) && (cols (this w) <=? 50)
      then cols (this w') = cols (this w) else True)
  /\ (if (1 <=? rows (this w)) && (rows (this w) <=? 50)
      then rows (this w') = rows (this w) else True)
  /\ boardOf w'
     = sizedBoard (cols (this w')) (rows (this w'))
         (sizedBoard (cols (this w')) (rows (this w')) (boardOf w))
  /\ moveHistory (this w') = [] /\ undos (this w') = 0
  /\ started (this w') = false /\ scrambled (this w') = false
  /\ inspecting (this w') = false
  /\ Game.blind (game (this w')) = false
  /\ Game.noRegrips (game (this w')) = noRegrips (this w).
Proof.
  cbv zeta.
  assert (Hc : cols (this (after (optionsWatcher w)))
               = Z.min (Z.max (cols (this w)) 1) 50).
  { rewrite <- clampDimension_eq. expose w. unfold optionsWatcher, reset.
    run_js; reflexivity. }
  assert (Hr : rows (this (after (optionsWatcher w)))
               = Z.min (Z.max (rows (this w)) 1) 50).
  { rewrite <- clampDimension_eq. expose w. unfold optionsWatcher, reset.
    run_js; reflexivity. }
  split; [expose w; unfold optionsWatcher, reset; run_js; reflexivity|].
  split.
  { intros [|q|[|]]; [reflexivity|apply clampSize_Num|reflexivity..]. }
  split; [by rewrite clampSize_Num, Qround.Qfloor_Z, Hc|].
  split; [by rewrite clampSize_Num, Qround.Qfloor_Z, Hr|].
  rewrite Hc, Hr. clear Hc Hr.
  split; [lia|]. split; [lia|].
  split; [repeat case_match; try exact I; lia|].
  split; [repeat case_match; try exact I; lia|].
  rewrite <- !clampDimension_eq.
  expose w. unfold optionsWatcher, reset. run_js; repeat split; reflexivity.
Qed.

End Storage.

Section AutomaticRecord.

Context {Board Tile : Type} {E : Engine Board Tile}.
Implicit Types (w : @World Board Tile) (s : @State Board Tile)
  (op : @Op Board) (ops : list (@Op Board)).

(** ** The record of a solve that ends by itself *)

Lemma stepped_keeps n d move w :
  dnf (this (stepped n d move w)) = dnf (this w)
  /\ scrambledBoard (this (stepped n d move w)) = scrambledBoard (this w).
Proof. by expose w. Qed.

Lemma with_board_keeps b w :
  dnf (this (with_board b w)) = dnf (this w)
  /\ scrambledBoard (this (with_board b w)) = scrambledBoard (this w)
  /\ allSolves (this (with_board b w)) = allSolves (this w).
Proof. by expose w. Qed.

Lemma recorded_keeps move w :
  dnf (this (recorded move w)) = dnf (this w)
  /\ scrambledBoard (this (recorded move w)) = scrambledBoard (this w).
Proof.
  expose w. unfold recorded, logged, truncated, timed, start. sim.
  destruct vscrambled, vstarted; sim; destruct (0 <? vundos); by sim.
Qed.

Lemma passive_keeps op w :
  passive op = true ->
  dnf (this (after (exec op w))) = dnf (this w)
  /\ scrambledBoard (this (after (exec op w))) = scrambledBoard (this w).
Proof.
  destruct op; try discriminate; cbn [exec]; intros Hp.
  - destruct (undo_shape w) as [->|[->|(move & ->)]]; cbn [after];
      [done|done|apply stepped_keeps].
  - destruct (redo_shape w) as [->|[->|(move & ->)]]; cbn [after];
      [done|done|apply stepped_keeps].
  - destruct isPlayerMove; [discriminate|done].
  - expose w. unfold intervalFired. sim.
    destruct (bool_decide (h ∈ vtimers)); by sim.
Qed.

Lemma solveOf_fields w :
  Solve.dnf (solveOf w) = (if dnf (this w) then Some true else None)
  /\ Solve.memoTime (solveOf w)
     = (if 0 <? memoTime (this w) then Some (memoTime (this w)) else None)
  /\ Solve.scramble (solveOf w) = scrambledBoard (this w)
  /\ Solve.moves (solveOf w) = moveHistory (this w)
  /\ Solve.time (solveOf w) = clock w (reads w) - startTime (this w).
Proof. done. Qed.

Lemma handleMove_in_progress sb move w :
  solve_in_progress sb w ->
  let w' := after (handleMove move true w) in
  if isSolved (boardOf w) then
    exists solve,
      allSolves (this w') = allSolves (this w) ++ [solve]
      /\ Solve.dnf solve = None /\ Solve.memoTime solve = None
      /\ Solve.scramble solve = Some sb
      /\ Solve.moves solve = moveHistory (this w')
      /\ Solve.time solve = time (this w')
      /\ started (this w') = false
  else solve_in_progress sb w'.
Proof.
  intros ([He Hsc] & Hd & Hm & Hb). cbv zeta.
  assert (Hacc : accepted (this w) = true) by (unfold accepted; by rewrite Hsc).
  rewrite handleMove_accepted by done. rewrite bool_decide_false by done.
  destruct (recorded_frame move w) as (Hre & _ & _ & Hrm & Hra & Hrs & _).
  destruct (recorded_keeps move w) as (Hrd & Hrb).
  assert (Hrm0 : memoTime (this (recorded move w)) = 0)
    by (rewrite Hrm; by case_match).
  destruct (handleSolved_effect (recorded move w))
    as (S1 & _ & _ & S4 & S5 & S6 & _).
  destruct (isSolved (boardOf w)); cbn [after].
  - exists (solveOf (recorded move w)). rewrite S4, S5, S6, S1, Hra.
    destruct (solveOf_fields (recorded move w)) as (-> & -> & -> & -> & ->).
    rewrite Hrd, Hd, Hrm0, Hrb, Hb. done.
  - unfold solve_in_progress, awaiting. rewrite Hre, Hrs, Hrd, Hrm0, Hrb. auto.
Qed.

Lemma playing_in_progress sb op w :
  playing op = true -> solve_in_progress sb w ->
  let w' := after (exec op w) in
  if playerEvent op && isSolved (boardOf w') then
    exists solve,
      allSolves (this w') = allSolves (this w) ++ [solve]
      /\ Solve.dnf solve = None /\ Solve.memoTime solve = None
      /\ Solve.scramble solve = Some sb
      /\ Solve.moves solve = moveHistory (this w')
      /\ Solve.time solve = time (this w')
      /\ started (this w') = false
  else solve_in_progress sb w' /\ allSolves (this w') = allSolves (this w).
Proof.
  intros Hop Hw. cbv zeta. destruct (playerEvent op) eqn:Hpl; cbn [andb].
  - destruct (player_event_board op w Hpl) as (move & b & Hx & Hb).
    rewrite Hb, Hx.
    destruct (with_board_quiet b w) as (Hq & _ & Hbb & _).
    destruct (with_board_keeps b w) as (K1 & K2 & K3).
    assert (Hw' : solve_in_progress sb (with_board b w)).
    { destruct Hw as (Ha & Hd & Hm & Hs). split; [by eapply quiet_awaiting|].
      destruct Hq as (_ & _ & _ & _ & Qm & _). rewrite K1, K2, Qm. auto. }
    pose proof (handleMove_in_progress sb move _ Hw') as H. cbv zeta in H.
    rewrite Hbb, K3 in H.
    destruct (isSolved b) eqn:Hs; [exact H|]. split; [exact H|].
    destruct Hw' as (Ha & _).
    pose proof (handleMove_awaiting move _ Ha) as H'. cbv zeta in H'.
    rewrite Hbb, Hs, K3 in H'. apply H'.
  - destruct (playing_cases op Hop) as [Hpas|?]; [|congruence].
    pose proof (passive_quiet op w Hpas) as Hq.
    destruct (passive_keeps op w Hpas) as (K1 & K2).
    destruct Hw as (Ha & Hd & Hm & Hs).
    split; [|by destruct Hq as (_ & _ & _ & _ & _ & _ & -> & _)].
    split; [by eapply quiet_awaiting|].
    destruct Hq as (_ & _ & _ & _ & Qm & _). rewrite K1, K2, Qm. auto.
Qed.

Lemma run_in_progress sb ops w :
  forallb playing ops = true -> solve_in_progress sb w ->
  solvedAlong ops w = false ->
  solve_in_progress sb (run ops w)
  /\ allSolves (this (run ops w)) = allSolves (this w).
Proof.
  revert w. induction ops as [|p ops IH]; intros w Hops Hw Hnone; [done|].
  cbn in Hops. apply andb_prop in Hops as [H1 H2].
  cbn [solvedAlong] in Hnone. apply orb_false_elim in Hnone as [Hn1 Hn2].
  cbn [run]. pose proof (playing_in_progress sb p w H1 Hw) as Hstep.
  cbv zeta in Hstep. rewrite Hn1 in Hstep. destruct Hstep as [Ha Hs].
  destruct (IH _ H2 Ha Hn2) as [IH1 IH2]. split; [exact IH1|congruence].
Qed.

(** Outside blind mode, the record added by the first player's move that
    leaves the board solved after [scramble()] is not a DNF and has no
    memorisation time; its scramble is the snapshot taken by [scramble()],
    its moves are the log and its time the displayed time as that call
    leaves them, and the timer is stopped. *)
Theorem automatic_solve_record w0 seed (pre : list Op) op :
  event (this w0) <> Blind ->
  forallb playing pre = true -> playerEvent op = true ->
  solvedAlong pre (after (scramble seed w0)) = false ->
  isSolved (boardOf (after (exec op (run pre (after (scramble seed w0))))))
  = true ->
  let w' := after (exec op (run pre (after (scramble seed w0)))) in
  exists solve,
    allSolves (this w') = allSolves (this w0) ++ [solve]
    /\ Solve.dnf solve = None /\ Solve.memoTime solve = None
    /\ Solve.scramble solve = Some (clone (scrambleBoard seed (boardOf w0)))
    /\ Solve.moves solve = moveHistory (this w')
    /\ Solve.time solve = time (this w')
    /\ started (this w') = false.
Proof.
  intros He Hpre Hop Hnone Hsolved. cbv zeta.
  destruct (scramble_fields seed w0)
    as (_ & _ & Hsb & _ & _ & Hsc & _ & Hd & _ & _ & Hm & _).
  destruct (scramble_effect seed w0)
    as (_ & He' & _ & _ & _ & _ & _ & _ & _ & _ & Ha & _).
  generalize dependent (after (scramble seed w0)).
  intros ws Hnone Hsolved Hsb Hsc Hd Hm He' Ha.
  assert (Hw : solve_in_progress (clone (scrambleBoard seed (boardOf w0))) ws).
  { unfold solve_in_progress, awaiting. rewrite He'. auto. }
  destruct (run_in_progress _ pre ws Hpre Hw Hnone) as [Hw' Hsame].
  assert (Hpl : playing op = true) by (destruct op; done).
  pose proof (playing_in_progress _ op _ Hpl Hw') as Hstep.
  cbv zeta in Hstep. rewrite Hop, Hsolved in Hstep. cbn [andb] in Hstep.
  destruct Hstep as (solve & H1 & H2). exists solve.
  split; [by rewrite H1, Hsame, Ha|exact H2].
Qed.

End AutomaticRecord.

(** * The further properties on concrete sessions *)

Lemma counterBoot_reachable c : reachable (E:=counterEngine) (counterBoot c).
Proof. exists counterGame, c, emptyDb, []. reflexivity. Qed.

Lemma undo_steps_back_witness :
  exists w',
    undo (E:=counterEngine) solveUnderWay = Returns tt w'
    /\ if undos (this solveUnderWay) <? historyLength (this solveUnderWay) then
         exists move,
           at_index (moveHistory (this solveUnderWay))
             (historyLength (this solveUnderWay) - undos (this solveUnderWay) - 1)
           = Some move
           /\ boardOf w'
              = @applyMove _ _ counterEngine (Move.axis move) (Move.index move)
                  (- Move.n move) (boardOf solveUnderWay)
           /\ undos (this w') = undos (this solveUnderWay) + 1
           /\ w' = stepped (E:=counterEngine) (- Move.n move) 1 move solveUnderWay
       else w' = solveUnderWay.
Proof. exact (undo_steps_back (E:=counterEngine) _ solveUnderWay_reachable). Defined.

Lemma redo_steps_forward_witness :
  exists w',
    redo (E:=counterEngine) solveUnderWay = Returns tt w'
    /\ if 0 <? undos (this solveUnderWay) then
         exists move,
           at_index (moveHistory (this solveUnderWay))
             (historyLength (this solveUnderWay) - undos (this solveUnderWay))
           = Some move
           /\ boardOf w'
              = @applyMove _ _ counterEngine (Move.axis move) (Move.index move)
                  (Move.n move) (boardOf solveUnderWay)
           /\ undos (this w') = undos (this solveUnderWay) - 1
           /\ w' = stepped (E:=counterEngine) (Move.n move) (-1) move solveUnderWay
       else w' = solveUnderWay.
Proof. exact (redo_steps_forward (E:=counterEngine) _ solveUnderWay_reachable). Defined.

Lemma handleMove_counts_moves_witness :
  moves (this (after (handleMove (E:=counterEngine) (Move.mk Col 0 (-2) 0) true
                        solveUnderWay)))
  = moves (this solveUnderWay) + Z.abs (Move.n (Move.mk Col 0 (-2) 0)).
Proof.
  apply (handleMove_counts_moves (E:=counterEngine)).
  - exact solveUnderWay_reachable.
  - vm_compute. reflexivity.
Defined.

Lemma stopped_session_ignores_ticks_witness :
  let w := run (E:=counterEngine)
             [OpScramble 3; OpPlayerMove Row 0 2; OpDone]
             (counterBoot tickingClock) in
  (interval (this w) = Some 0%nat /\ time (this w) = 3)
  /\ intervalFired 0 w = Returns tt w.
Proof.
  cbv zeta. split; [split; vm_compute; reflexivity|].
  apply (stopped_session_ignores_ticks (E:=counterEngine)).
  - exists counterGame, tickingClock, emptyDb,
      [OpScramble 3; OpPlayerMove Row 0 2; OpDone].
    unfold counterBoot. exact eq_refl.
  - vm_compute. reflexivity.
Defined.

Lemma pending_tick_samples_clock_witness :
  intervalFired 0 solveUnderWay
  = Returns tt
      {| this := set_time (clock solveUnderWay (reads solveUnderWay)
                             - startTime (this solveUnderWay))
                   (this solveUnderWay);
         clock := clock solveUnderWay; reads := S (reads solveUnderWay);
         timers := timers solveUnderWay;
         nextTimer := nextTimer solveUnderWay; idb := idb solveUnderWay |}.
Proof.
  apply (pending_tick_samples_clock (Board:=Z*Z) (Tile:=Z)).
  vm_compute. constructor.
Defined.

Lemma first_move_starts_timer_witness :
  let w0 := counterBoot tickingClock in
  let move := Move.mk Row 0 2 0 in
  let w := after (scramble (E:=counterEngine) 3 w0) in
  let w' := after (handleMove (E:=counterEngine) move true w) in
  started (this w) = false
  /\ started (this w') = negb (@isSolved _ _ counterEngine (boardOf w))
  /\ startTime (this w') = clock w0 (reads w0)
  /\ moveHistory (this w')
     = unitEntries move (clock w0) (S (reads w0)) (clock w0 (reads w0))
         (Z.abs_nat (Move.n move)).
Proof.
  apply (first_move_starts_timer (E:=counterEngine) 3 (Move.mk Row 0 2 0)
           (counterBoot tickingClock)).
  discriminate.
Defined.

Lemma replay_rebuilds_final_board_witness :
  exists w1 w2,
    inspect (E:=counterEngine) recordedSolve solveUnderWay = Returns tt w1
    /\ times (length (Solve.moves recordedSolve)) (redo (E:=counterEngine)) w1
       = Returns tt w2
    /\ undos (this w2) = 0
    /\ boardOf w2
       = applyMoves (E:=counterEngine) (Solve.moves recordedSolve)
           (@clone _ _ counterEngine (1, 1)).
Proof.
  apply (replay_rebuilds_final_board (E:=counterEngine)). reflexivity.
Defined.

Lemma handleSolved_records_solve_witness :
  exists w' solve,
    handleSolved solveUnderWay = Returns tt w'
    /\ allSolves (this w') = allSolves (this solveUnderWay) ++ [solve]
    /\ solvesList (this w') = solvesList (this solveUnderWay) ++ [solve]
    /\ Solve.time solve
       = clock solveUnderWay (reads solveUnderWay) - startTime (this solveUnderWay)
    /\ time (this w') = Solve.time solve
    /\ Solve.moves solve = moveHistory (this solveUnderWay)
    /\ Solve.scramble solve = scrambledBoard (this solveUnderWay)
    /\ Solve.startTime solve = startTime (this solveUnderWay)
    /\ Solve.memoTime solve
       = (if 0 <? memoTime (this solveUnderWay)
          then Some (memoTime (this solveUnderWay)) else None)
    /\ Solve.dnf solve = (if dnf (this solveUnderWay) then Some true else None).
Proof.
  exact (handleSolved_records_solve (E:=counterEngine) _ solveUnderWay_reachable).
Defined.

Lemma loadFromLocalStorage_discards_witness :
  loadFromLocalStorage
    (Some (StoredState.mk 1 7 7 Fmc (Some true) None None None None))
    solveUnderWay
  = Returns tt solveUnderWay.
Proof.
  apply (loadFromLocalStorage_discards (Board:=Z*Z) (Tile:=Z)). reflexivity.
Defined.

Lemma automatic_solve_record_witness :
  let w0 := counterBoot frozenClock in
  let pre := [OpPlayerMove Row 0 (-1); OpUndo; OpRedo] in
  let op := OpPlayerMove Col 0 1 in
  let w' := after (exec (E:=counterEngine) op
                     (run (E:=counterEngine) pre
                        (after (scramble (E:=counterEngine) 1 w0)))) in
  exists solve,
    allSolves (this w') = allSolves (this w0) ++ [solve]
    /\ Solve.dnf solve = None /\ Solve.memoTime solve = None
    /\ Solve.scramble solve
       = Some (@clone _ _ counterEngine
                 (@scrambleBoard _ _ counterEngine 1 (boardOf w0)))
    /\ Solve.moves solve = moveHistory (this w')
    /\ Solve.time solve = time (this w')
    /\ started (this w') = false.
Proof.
  apply (automatic_solve_record (E:=counterEngine) (counterBoot frozenClock) 1
           [OpPlayerMove Row 0 (-1); OpUndo; OpRedo] (OpPlayerMove Col 0 1)).
  - discriminate.
  - reflexivity.
  - reflexivity.
  - vm_compute. reflexivity.
  - vm_compute. reflexivity.
Defined.

Section Edges.

Context {Board Tile : Type} {E : Engine Board Tile}.
Implicit Types (w : @World Board Tile) (s : @State Board Tile)
  (op : @Op Board) (ops : list (@Op Board)).

(** ** Inspecting a solve that has no scramble *)

(** [inspect(solve)] on a solve whose scramble is missing throws a
    [TypeError] at [solve.scramble.clone()]; by then the session has been
    reset and marked as inspecting with the solve's time, while the log is
    empty, the cursor 0 and the board the one found. *)
Theorem inspect_without_scramble_throws solve w :
  Solve.scramble solve = None ->
  exists w',
    inspect solve w = Throws TypeError w'
    /\ inspecting (this w') = true
    /\ time (this w') = Solve.time solve
    /\ moveHistory (this w') = [] /\ undos (this w') = 0
    /\ started (this w') = false /\ scrambled (this w') = false
    /\ boardOf w' = boardOf w.
Proof.
  intros Hb. exists (after (inspect solve w)).
  expose w. destruct solve as [t ms sc st mt df]. cbn in Hb. subst.
  unfold inspect, reset.
  cbn [Solve.time Solve.moves Solve.scramble Solve.startTime Solve.memoTime
       Solve.dnf].
  run_js; repeat split; reflexivity.
Qed.

(** ** The getters of the undo and redo buttons *)

(** In a reachable state the getter [undoable] is true exactly when
    [undo()] has nothing to undo and leaves the session as it is, and
    [redoable] is true exactly when [redo()] has nothing to redo; when a
    getter is false the call moves the cursor by one. *)
Theorem getters_tell_exhausted_steps w :
  reachable w ->
  (if undoable (this w) then undo w = Returns tt w
   else undos (this (after (undo w))) = undos (this w) + 1)
  /\ (if redoable (this w) then redo w = Returns tt w
      else undos (this (after (redo w))) = undos (this w) - 1).
Proof.
  intros Hr. destruct (reachable_ok w Hr) as [Hc _].
  unfold undoable, redoable. split.
  - destruct (undos (this w) =? historyLength (this w)) eqn:He.
    + apply undo_at_start. lia.
    + destruct (undo_returns w Hc) as (move & _ & ->);
        [unfold cursor_in_bounds in Hc; lia|].
      cbn [after]. apply stepped_fields.
  - destruct (undos (this w) =? 0) eqn:He.
    + apply redo_at_end. lia.
    + destruct (redo_returns w Hc) as (move & _ & ->);
        [unfold cursor_in_bounds in Hc; lia|].
      cbn [after]. destruct (stepped_fields (Move.n move) (-1) move w) as [-> _].
      lia.
Qed.

(** ** What [reset] does to the engine *)

Lemma ceil_half_pred (x : Z) : ceil_half (x - 1) = x / 2.
Proof.
  unfold ceil_half.
  pose proof (Z.div_mod x 2 ltac:(lia)) as H1.
  pose proof (Z.mod_pos_bound x 2 ltac:(lia)) as H2.
  pose proof (Z.div_mod (- (x - 1)) 2 ltac:(lia)) as H3.
  pose proof (Z.mod_pos_bound (- (x - 1)) 2 ltac:(lia)) as H4.
  lia.
Qed.

(** [reset(true)] leaves the engine and [allSolves] alone.  [reset()]
    rebuilds the board for the session's dimensions, shows it and copies
    [noRegrips] to the engine; with [noRegrips] set the active tile is the
    tile at row [rows / 2] and column [cols / 2], which lies on the board
    when both dimensions are at least 1, and is left as it was otherwise. *)
Theorem reset_configures_engine w :
  game (this (after (reset true w))) = game (this w)
  /\ allSolves (this (after (reset true w))) = allSolves (this w)
  /\ let w' := after (reset false w) in
     boardOf w' = sizedBoard (cols (this w)) (rows (this w)) (boardOf w)
     /\ Game.blind (game (this w')) = false
     /\ Game.noRegrips (game (this w')) = noRegrips (this w)
     /\ Game.activeTile (game (this w'))
        = (if noRegrips (this w)
           then Some (tileAt (boardOf w') (rows (this w) / 2) (cols (this w) / 2))
           else Game.activeTile (game (this w)))
     /\ (if (1 <=? rows (this w)) && (1 <=? cols (this w))
         then 0 <= rows (this w) / 2 < rows (this w)
              /\ 0 <= cols (this w) / 2 < cols (this w)
         else True).
Proof.
  cbv zeta. expose w. unfold reset. sim.
  split; [run_js; reflexivity|]. split; [run_js; reflexivity|].
  rewrite <- !ceil_half_pred.
  split; [run_js; reflexivity|]. split; [run_js; reflexivity|].
  split; [run_js; reflexivity|]. split; [run_js; reflexivity|].
  rewrite !ceil_half_pred.
  destruct (1 <=? vrows) eqn:H1, (1 <=? vcols) eqn:H2; cbn [andb]; try exact I.
  split; split; try (apply Z.div_pos; lia); apply Z.div_lt_upper_bound; lia.
Qed.

End Edges.

Section Reload.

Context {Board Tile : Type} {E : Engine Board Tile}.
Implicit Types (w : @World Board Tile) (s : @State Board Tile)
  (op : @Op Board) (ops : list (@Op Board)).

Lemma reviveSolve_Some (solve : Solve.t Board) b :
  Solve.scramble solve = Some b ->
  reviveSolve solve
  = Some (Solve.mk (Solve.time solve) (Solve.moves solve) (Some (clone b))
            (Solve.startTime solve) (Solve.memoTime solve) (Solve.dnf solve)).
Proof. unfold reviveSolve. by intros ->. Qed.

Lemma mapM_reviveSolve_snoc (l l' : list (Solve.t Board)) solve solve' :
  mapM reviveSolve l = Some l' -> reviveSolve solve = Some solve' ->
  mapM reviveSolve (l ++ [solve]) = Some (l' ++ [solve']).
Proof.
  intros Hl Hs. apply mapM_Some_2. apply Forall2_app.
  - by apply mapM_Some_1.
  - by repeat constructor.
Qed.

Lemma reset_allSolves w :
  db (this w) = true ->
  allSolves (this (after (reset false w)))
  = match mapM reviveSolve (storedUnder (eventName (this w)) (solvesStore (idb w))) with
    | Some l => l
    | None => allSolves (this w)
    end.
Proof.
  expose w. sim. intros ->. unfold reset, storedUnder, eventName.
  destruct vidb as [vsessions vstore].
  destruct vevent, vnoRegrips; sim; case_bool_decide; sim;
    match goal with
    | |- context [mapM reviveSolve ?l] => destruct (mapM reviveSolve l)
    end; reflexivity.
Qed.

(** ** Loading the history of an event *)

(** With a database open, [reset()] replaces [allSolves] by the solves
    stored under the event's name, in the order of the store and each with
    its scramble built anew, as long as each of them has a scramble: there
    are as many, and each agrees with the stored one on time, moves, start
    time, memo time and dnf.  The database itself is only read. *)
Theorem reset_loads_event_history w :
  db (this w) = true ->
  Forall (fun solve => is_Some (Solve.scramble solve))
    (storedUnder (eventName (this w)) (solvesStore (idb w))) ->
  let w' := after (reset false w) in
  Forall2 (fun stored loaded =>
      exists b, Solve.scramble stored = Some b
        /\ loaded = Solve.mk (Solve.time stored) (Solve.moves stored)
                      (Some (clone b)) (Solve.startTime stored)
                      (Solve.memoTime stored) (Solve.dnf stored))
    (storedUnder (eventName (this w)) (solvesStore (idb w)))
    (allSolves (this w'))
  /\ idb w' = idb w.
Proof.
  cbv zeta. intros Hd Hall. split.
  - rewrite reset_allSolves by done.
    generalize dependent (storedUnder (eventName (this w)) (solvesStore (idb w))).
    intros l Hall.
    assert (exists l', mapM reviveSolve l = Some l') as [l' Hl'].
    { apply mapM_is_Some. eapply Forall_impl; [exact Hall|].
      intros solve [b Hb]. unfold compose.
      rewrite (reviveSolve_Some solve b Hb). eauto. }
    rewrite Hl'. apply mapM_Some_1 in Hl'.
    eapply Forall2_impl; [exact Hl'|].
    intros stored loaded. unfold reviveSolve.
    destruct (Solve.scramble stored) as [b|]; [|done].
    intros [= <-]. by exists b.
  - clear. expose w. unfold reset. destruct vidb. run_js; reflexivity.
Qed.

(** ** A stored solve comes back *)

Lemma handleSolved_store w :
  db (this w) = true ->
  let w' := after (handleSolved w) in
  db (this w') = true
  /\ eventName (this w') = eventName (this w)
  /\ solvesStore (idb w')
     = solvesStore (idb w)
       ++ (if noSessionId (sessionId (this w)) then []
           else [(eventName (this w), sessionId (this w), solveOf w)]).
Proof.
  cbv zeta. expose w. sim. intros ->.
  unfold handleSolved, pushSolve, solveOf, eventName. sim.
  destruct vidb as [vsessions vstore].
  destruct vsolves; sim; destruct (noSessionId vsessionId); sim;
    rewrite ?app_nil_r; repeat split.
Qed.

Lemma sessionStored_store key (solve : Solve.t Board) w :
  let w' := after (sessionStored key solve w) in
  db (this w') = db (this w)
  /\ eventName (this w') = eventName (this w)
  /\ solvesStore (idb w')
     = solvesStore (idb w) ++ [(eventName (this w), Some key, solve)].
Proof.
  cbv zeta. expose w. unfold sessionStored, eventName. sim.
  destruct vidb. repeat split.
Qed.

Lemma storedUnder_own key stored (row : string * option Z * Solve.t Board) :
  row.1.1 = key ->
  storedUnder key (stored ++ [row]) = storedUnder key stored ++ [row.2].
Proof.
  intros H. unfold storedUnder.
  rewrite filter_app, map_app, filter_cons, filter_nil.
  by rewrite decide_True.
Qed.

(** With a database open, the solve that [handleSolved()] records is read
    back by a [reset()] as the last entry of [allSolves], behind the solves
    stored earlier for the event and with the session's scramble built
    anew, once it is in the store: from the call on when the session has
    an id, and when it has none only after the pending put of the session
    row has resolved; a [reset()] that comes before that reads the earlier
    solves alone. *)
Theorem stored_solve_comes_back w b earlier key :
  db (this w) = true ->
  scrambledBoard (this w) = Some b ->
  mapM reviveSolve (storedUnder (eventName (this w)) (solvesStore (idb w)))
    = Some earlier ->
  let w1 := after (handleSolved w) in
  let loaded :=
    earlier
    ++ [Solve.mk (clock w (reads w) - startTime (this w)) (moveHistory (this w))
          (Some (clone b)) (startTime (this w))
          (if 0 <? memoTime (this w) then Some (memoTime (this w)) else None)
          (if dnf (this w) then Some true else None)] in
  if noSessionId (sessionId (this w)) then
    allSolves (this (after (reset false w1))) = earlier
    /\ allSolves
         (this (after (reset false (after (sessionStored key (solveOf w) w1)))))
       = loaded
  else allSolves (this (after (reset false w1))) = loaded.
Proof.
  intros Hd Hb He. cbv zeta.
  destruct (handleSolved_store w Hd) as (Hd' & Hk & Hs).
  assert (Hrev : reviveSolve (solveOf w)
                 = Some (Solve.mk (clock w (reads w) - startTime (this w))
                           (moveHistory (this w)) (Some (clone b))
                           (startTime (this w))
                           (if 0 <? memoTime (this w)
                            then Some (memoTime (this w)) else None)
                           (if dnf (this w) then Some true else None))).
  { unfold reviveSolve, solveOf. cbn [Solve.scramble]. by rewrite Hb. }
  destruct (noSessionId (sessionId (this w))).
  - rewrite app_nil_r in Hs. split.
    + rewrite reset_allSolves by done. by rewrite Hk, Hs, He.
    + destruct (sessionStored_store key (solveOf w) (after (handleSolved w)))
        as (Hd2 & Hk2 & Hs2).
      rewrite reset_allSolves by congruence.
      rewrite Hk2, Hs2, Hk, Hs, storedUnder_own by done.
      by erewrite mapM_reviveSolve_snoc.
  - rewrite reset_allSolves by done.
    rewrite Hk, Hs, storedUnder_own by done.
    by erewrite mapM_reviveSolve_snoc.
Qed.

End Reload.

Section EventNames.

Context {Board Tile : Type}.
Implicit Types (s : @State Board Tile) (c : Ascii.ascii) (l p t : list Ascii.ascii).

(** ** The characters of an event name *)

Local Abbreviation chars := String.list_ascii_of_string.






(** The part of the name behind the dimensions. *)
Local Abbreviation tag e n :=
  (chars (match e with Normal => "" | Fmc => "-fmc" | Blind => "-bld" end)
   ++ chars (if n then "-nrg" else "")).




End EventNames.

Section Store.

Context {Board Tile : Type} {E : Engine Board Tile}.
Implicit Types (w : @World Board Tile) (s : @State Board Tile)
  (op : @Op Board) (ops : list (@Op Board)).

(** ** The store only grows *)

Local Abbreviation grows w w' :=
  (solvesStore (idb w) `prefix_of` solvesStore (idb w')
   /\ sessions (idb w) `prefix_of` sessions (idb w')).

Ltac grows_finish :=
  split; first [reflexivity | by apply prefix_app_r].

Lemma grows_trans w1 w2 w3 : grows w1 w2 -> grows w2 w3 -> grows w1 w3.
Proof. intros [? ?] [? ?]. split; by etrans. Qed.

Lemma reset_grows b w : grows w (after (reset b w)).
Proof. expose w. destruct vidb as [vsessions vstore]. unfold reset. run_js; grows_finish. Qed.

Lemma scramble_grows seed w : grows w (after (scramble seed w)).
Proof.
  expose w. destruct vidb as [vsessions vstore]. unfold scramble, reset, start. run_js; grows_finish.
Qed.

Lemma handleSolved_grows w : grows w (after (handleSolved w)).
Proof.
  expose w. destruct vidb as [vsessions vstore]. unfold handleSolved, pushSolve.
  run_js; grows_finish.
Qed.

Lemma done_grows w : grows w (after (done w)).
Proof.
  expose w. destruct vidb as [vsessions vstore]. unfold done, handleSolved, pushSolve.
  run_js; grows_finish.
Qed.

Lemma undo_grows w : grows w (after (undo w)).
Proof.
  expose w. destruct vidb as [vsessions vstore]. unfold undo, animatedMove, handleMove. run_js; grows_finish.
Qed.

Lemma redo_grows w : grows w (after (redo w)).
Proof.
  expose w. destruct vidb as [vsessions vstore]. unfold redo, animatedMove, handleMove. run_js; grows_finish.
Qed.

Lemma inspect_grows solve w : grows w (after (inspect solve w)).
Proof. expose w. destruct vidb as [vsessions vstore]. unfold inspect, reset. run_js; grows_finish. Qed.

Lemma changeSize_grows size w : grows w (after (changeSize size w)).
Proof.
  expose w. destruct vidb as [vsessions vstore]. unfold changeSize, reset. run_js; grows_finish.
Qed.

Lemma optionsWatcher_grows w : grows w (after (optionsWatcher w)).
Proof.
  expose w. destruct vidb as [vsessions vstore]. unfold optionsWatcher, reset. run_js; grows_finish.
Qed.

Lemma dbOpened_grows w : grows w (after (dbOpened w)).
Proof. expose w. destruct vidb as [vsessions vstore]. unfold dbOpened, reset. run_js; grows_finish. Qed.

Lemma intervalFired_grows h w : grows w (after (intervalFired h w)).
Proof. expose w. destruct vidb as [vsessions vstore]. unfold intervalFired. run_js; grows_finish. Qed.

Lemma loadFromLocalStorage_grows loopover w :
  grows w (after (loadFromLocalStorage loopover w)).
Proof.
  destruct loopover as [state|]; [|done]. unfold loadFromLocalStorage.
  destruct (StoredState.version state =? 0); [|done]. cbn [negb].
  destruct (StoredState.noRegrips state), (StoredState.darkMode state),
    (StoredState.forceMobile state), (StoredState.useLetters state),
    (StoredState.darkText state); cbn; done.
Qed.

Lemma sessionStored_grows key solve w :
  grows w (after (sessionStored key solve w)).
Proof.
  expose w. destruct vidb as [vsessions vstore]. unfold sessionStored.
  run_js; grows_finish.
Qed.

Lemma recorded_idb move w : idb (recorded move w) = idb w.
Proof.
  expose w. unfold recorded, logged, truncated, timed, start. run_js; reflexivity.
Qed.

Lemma handleMove_grows move isPlayerMove w :
  grows w (after (handleMove move isPlayerMove w)).
Proof.
  destruct isPlayerMove; [|done].
  destruct (accepted (this w)) eqn:Hacc; [|by rewrite handleMove_refused].
  rewrite handleMove_accepted by done.
  pose proof (recorded_idb move w) as Hr.
  repeat case_match; cbn [after];
    try (by unfold memoStamped; cbn [idb]; rewrite ?Hr).
  rewrite <- Hr. apply handleSolved_grows.
Qed.

Lemma exec_grows op w : grows w (after (exec op w)).
Proof.
  destruct op; cbn [exec];
    try (by auto using scramble_grows, reset_grows, done_grows, undo_grows,
           redo_grows, inspect_grows, changeSize_grows, handleMove_grows,
           optionsWatcher_grows, dbOpened_grows, intervalFired_grows,
           loadFromLocalStorage_grows, sessionStored_grows).
  unfold playerMove.
  change (grows (with_board (applyMove axis index n (boardOf w)) w)
    (after (handleMove (Move.mk axis index n 0) true
       (with_board (applyMove axis index n (boardOf w)) w)))).
  apply handleMove_grows.
Qed.

(** Whatever happens to a session, the stored solves and the stored
    sessions are only added to: the rows that were in the store are still
    there, unchanged and in the same order, in front of the new ones. *)
Theorem stored_rows_are_kept ops w :
  solvesStore (idb w) `prefix_of` solvesStore (idb (run ops w))
  /\ sessions (idb w) `prefix_of` sessions (idb (run ops w)).
Proof.
  revert w. induction ops as [|op ops IH]; intros w; [done|].
  cbn [run]. eapply grows_trans; [apply exec_grows|apply IH].
Qed.

End Store.

Section SessionLists.

Context {Board Tile : Type} {E : Engine Board Tile}.
Implicit Types (w : @World Board Tile) (s : @State Board Tile)
  (op : @Op Board) (ops : list (@Op Board))
  (m : gmap string (list (Solve.t Board))).

(** ** The session's lists only grow *)

Local Abbreviation extends m m' :=
  (forall key l, m !! key = Some l ->
     exists l', m' !! key = Some l' /\ l `prefix_of` l').

Lemma extends_refl m : extends m m.
Proof. intros key l H. by exists l. Qed.

Lemma extends_trans m1 m2 m3 : extends m1 m2 -> extends m2 m3 -> extends m1 m3.
Proof.
  intros H12 H23 key l H. destruct (H12 key l H) as (l2 & H2 & P2).
  destruct (H23 key l2 H2) as (l3 & H3 & P3). exists l3. split; [done|].
  by etrans.
Qed.

Lemma extends_insert m k : m !! k = None -> extends m (<[k := []]> m).
Proof.
  intros Hk key l H. exists l. split; [|done].
  rewrite lookup_insert_ne; [done|]. intros ->. congruence.
Qed.

Lemma extends_alter m k (solve : Solve.t Board) :
  extends m (alter (fun l => l ++ [solve]) k m).
Proof.
  intros key l H. destruct (decide (k = key)) as [->|Hne].
  - exists (l ++ [solve]). rewrite lookup_alter_eq, H. split; [done|].
    by apply prefix_app_r.
  - exists l. by rewrite lookup_alter_ne.
Qed.

Ltac kept_finish :=
  sim;
  repeat match goal with
    | H : bool_decide _ = true |- _ => apply bool_decide_eq_true in H
    end;
  repeat first
    [ apply extends_refl
    | eapply extends_trans; [|apply extends_alter]
    | eapply extends_trans; [|apply extends_insert; assumption] ].

Lemma reset_kept b w :
  extends (sessionSolves (this w)) (sessionSolves (this (after (reset b w)))).
Proof. expose w. unfold reset. run_js; kept_finish. Qed.

Lemma handleSolved_kept w :
  extends (sessionSolves (this w)) (sessionSolves (this (after (handleSolved w)))).
Proof. expose w. unfold handleSolved, pushSolve. run_js; kept_finish. Qed.

Lemma scramble_kept seed w :
  extends (sessionSolves (this w)) (sessionSolves (this (after (scramble seed w)))).
Proof. expose w. unfold scramble, reset, start. run_js; kept_finish. Qed.

Lemma done_kept w :
  extends (sessionSolves (this w)) (sessionSolves (this (after (done w)))).
Proof. expose w. unfold done, handleSolved, pushSolve. run_js; kept_finish. Qed.

Lemma inspect_kept solve w :
  extends (sessionSolves (this w)) (sessionSolves (this (after (inspect solve w)))).
Proof. expose w. unfold inspect, reset. run_js; kept_finish. Qed.

Lemma changeSize_kept size w :
  extends (sessionSolves (this w)) (sessionSolves (this (after (changeSize size w)))).
Proof. expose w. unfold changeSize, reset. run_js; kept_finish. Qed.

Lemma optionsWatcher_kept w :
  extends (sessionSolves (this w)) (sessionSolves (this (after (optionsWatcher w)))).
Proof. expose w. unfold optionsWatcher, reset. run_js; kept_finish. Qed.

Lemma dbOpened_kept w :
  extends (sessionSolves (this w)) (sessionSolves (this (after (dbOpened w)))).
Proof. expose w. unfold dbOpened, reset. run_js; kept_finish. Qed.

Lemma handleMove_kept move isPlayerMove w :
  extends (sessionSolves (this w))
    (sessionSolves (this (after (handleMove move isPlayerMove w)))).
Proof.
  destruct isPlayerMove; [|apply extends_refl].
  destruct (accepted (this w)) eqn:Hacc;
    [|rewrite handleMove_refused by done; apply extends_refl].
  rewrite handleMove_accepted by done.
  destruct (recorded_lists move w) as [_ Hr].
  destruct (memoStamped_lists (recorded move w)) as [_ Hm].
  repeat case_match; cbn [after]; rewrite ?Hm, ?Hr; try apply extends_refl.
  rewrite <- Hr. apply handleSolved_kept.
Qed.

Lemma exec_kept op w :
  extends (sessionSolves (this w)) (sessionSolves (this (after (exec op w)))).
Proof.
  destruct op; cbn [exec];
    try (by auto using scramble_kept, reset_kept, done_kept, inspect_kept,
           changeSize_kept, handleMove_kept, optionsWatcher_kept, dbOpened_kept).
  - destruct (undo_shape w) as [->|[->|(move & ->)]]; cbn [after];
      rewrite ?(proj2 (stepped_lists _ _ _ _)); apply extends_refl.
  - destruct (redo_shape w) as [->|[->|(move & ->)]]; cbn [after];
      rewrite ?(proj2 (stepped_lists _ _ _ _)); apply extends_refl.
  - destruct (player_event (OpPlayerMove axis index n) w eq_refl)
      as (move & b & Hx & _).
    cbn [exec] in Hx. rewrite Hx.
    rewrite <- (proj2 (with_board_lists b w)). apply handleMove_kept.
  - expose w. unfold intervalFired. run_js; kept_finish.
  - unfold loadFromLocalStorage.
    destruct loopover as [state|]; [|apply extends_refl].
    destruct (StoredState.version state =? 0); [|apply extends_refl].
    cbn [negb].
    destruct (StoredState.noRegrips state), (StoredState.darkMode state),
      (StoredState.forceMobile state), (StoredState.useLetters state),
      (StoredState.darkText state); apply extends_refl.
  - expose w. run_js; kept_finish.
  - expose w. run_js; kept_finish.
  - expose w. run_js; kept_finish.
  - expose w. run_js; kept_finish.
  - expose w. unfold sessionStored. run_js; kept_finish.
Qed.

(** Within a session no recorded solve is lost: whatever happens next, the
    list that [sessionSolves] holds for an event is still there, and the
    solves it held are still its first entries, in the same order.  The
    stored preferences are read as the [StoredState] they are declared
    to be. *)
Theorem session_lists_are_kept ops w key l :
  sessionSolves (this w) !! key = Some l ->
  exists l',
    sessionSolves (this (run ops w)) !! key = Some l' /\ l `prefix_of` l'.
Proof.
  revert w l. induction ops as [|op ops IH]; intros w l H; [by exists l|].
  cbn [run]. destruct (exec_kept op w key l H) as (l1 & H1 & P1).
  destruct (IH _ l1 H1) as (l2 & H2 & P2). exists l2. split; [done|].
  by etrans.
Qed.

End SessionLists.

Lemma storedSession_reachable : reachable (E:=counterEngine) storedSession.
Proof.
  exists counterGame, tickingClock, storedDb,
    [OpDbOpened; OpScramble 3; OpPlayerMove Row 0 2].
  unfold storedSession. exact eq_refl.
Qed.

Lemma inspect_without_scramble_throws_witness :
  exists w',
    inspect (E:=counterEngine) (Solve.mk 900 [Move.mk Row 0 1 100] None 0 None None)
      solveUnderWay
    = Throws TypeError w'
    /\ inspecting (this w') = true
    /\ time (this w') = 900
    /\ moveHistory (this w') = [] /\ undos (this w') = 0
    /\ started (this w') = false /\ scrambled (this w') = false
    /\ boardOf w' = boardOf solveUnderWay.
Proof.
  apply (inspect_without_scramble_throws (E:=counterEngine)
           (Solve.mk 900 [Move.mk Row 0 1 100] None 0 None None) solveUnderWay).
  reflexivity.
Defined.

Lemma getters_tell_exhausted_steps_witness :
  (if undoable (this solveUnderWay)
   then undo (E:=counterEngine) solveUnderWay = Returns tt solveUnderWay
   else undos (this (after (undo (E:=counterEngine) solveUnderWay)))
        = undos (this solveUnderWay) + 1)
  /\ (if redoable (this solveUnderWay)
      then redo (E:=counterEngine) solveUnderWay = Returns tt solveUnderWay
      else undos (this (after (redo (E:=counterEngine) solveUnderWay)))
           = undos (this solveUnderWay) - 1).
Proof.
  exact (getters_tell_exhausted_steps (E:=counterEngine) _ solveUnderWay_reachable).
Defined.

Lemma reset_loads_event_history_witness :
  let w' := after (reset (E:=counterEngine) false storedSession) in
  Forall2 (fun stored loaded =>
      exists b, Solve.scramble stored = Some b
        /\ loaded = Solve.mk (Solve.time stored) (Solve.moves stored)
                      (Some (@clone _ _ counterEngine b)) (Solve.startTime stored)
                      (Solve.memoTime stored) (Solve.dnf stored))
    (storedUnder (eventName (this storedSession)) (solvesStore (idb storedSession)))
    (allSolves (this w'))
  /\ idb w' = idb storedSession.
Proof.
  apply (reset_loads_event_history (E:=counterEngine) storedSession).
  - vm_compute. reflexivity.
  - vm_compute. repeat constructor; eexists; reflexivity.
Defined.

Lemma stored_solve_comes_back_witness :
  let w1 := after (handleSolved storedSession) in
  let loaded :=
    [recordedSolve; Solve.mk 700 [] (Some (2, 0)) 50 None (Some true)]
    ++ [Solve.mk (clock storedSession (reads storedSession)
                  - startTime (this storedSession))
          (moveHistory (this storedSession))
          (Some (@clone _ _ counterEngine (3, -3)))
          (startTime (this storedSession))
          (if 0 <? memoTime (this storedSession)
           then Some (memoTime (this storedSession)) else None)
          (if dnf (this storedSession) then Some true else None)] in
  noSessionId (sessionId (this storedSession)) = true
  /\ if noSessionId (sessionId (this storedSession)) then
       allSolves (this (after (reset (E:=counterEngine) false w1)))
       = [recordedSolve; Solve.mk 700 [] (Some (2, 0)) 50 None (Some true)]
       /\ allSolves
            (this (after (reset (E:=counterEngine) false
                            (after (sessionStored 2 (solveOf storedSession) w1)))))
          = loaded
     else allSolves (this (after (reset (E:=counterEngine) false w1))) = loaded.
Proof.
  split; [vm_compute; reflexivity|].
  apply (stored_solve_comes_back (E:=counterEngine) storedSession (3, -3)
           [recordedSolve; Solve.mk 700 [] (Some (2, 0)) 50 None (Some true)] 2).
  - vm_compute. reflexivity.
  - vm_compute. reflexivity.
  - vm_compute. reflexivity.
Defined.

Lemma session_lists_are_kept_witness :
  let w := run (E:=counterEngine) [OpDone] solveUnderWay in
  exists l',
    sessionSolves
      (this (run (E:=counterEngine)
               [OpScramble 4; OpPlayerMove Row 0 1; OpDone; OpReset false] w))
      !! "5x5"%string = Some l'
    /\ solvesList (this w) `prefix_of` l'.
Proof.
  apply (session_lists_are_kept (E:=counterEngine)
           [OpScramble 4; OpPlayerMove Row 0 1; OpDone; OpReset false]
           (run (E:=counterEngine) [OpDone] solveUnderWay) "5x5"%string).
  vm_compute. reflexivity.
Defined.
